(** * Employee operation scoring: scoring engine and aggregation pipeline

    A shallow embedding of [employee_scoring_app2.py]: the penalty table,
    [calculate_score], [evaluate_all_operations], the two [groupby(...).mean()]
    aggregations of the scoring handler, the form-submit, clear and
    scoring handlers as transitions on the session state, and the two
    chart functions as the data they plot.

    Python numbers are modelled by [number]: an [int] is an unbounded
    integer, a [float] is an exact rational (rounding, infinities and NaN
    are not modelled). *)

From Stdlib Require Import ZArith QArith Lqa Lia List String OrderedTypeEx.
From stdpp Require Import gmap strings list fin_maps sorting.

Local Open Scope Z_scope.

(** ** Python numbers *)

Module PyNum.

Inductive number : Type :=
  | Int (z : Z)
  | Float (q : Q).

(** The mathematical value of a number; Python compares an [int] with a
    [float] by value. *)
Definition value (n : number) : Q :=
  match n with
  | Int z => inject_Z z
  | Float q => q
  end.

Definition is_int (n : number) : bool :=
  match n with
  | Int _ => true
  | Float _ => false
  end.

(** [a >= b] and [a < b]. *)
Definition ge (a b : number) : bool := Qle_bool (value b) (value a).
Definition lt (a b : number) : bool := negb (Qle_bool (value b) (value a)).

(** [a - p] for an [int] [p]: the result has the type of [a]. *)
Definition sub_int (a : number) (p : Z) : number :=
  match a with
  | Int z => Int (z - p)
  | Float q => Float (q - inject_Z p)%Q
  end.

(** The builtins [max(a, b)] and [min(a, b)] keep the first argument
    unless the second is strictly larger (resp. smaller); the object that
    is returned keeps its own type. *)
Definition max (a b : number) : number := if lt a b then b else a.
Definition min (a b : number) : number := if lt b a then b else a.

End PyNum.

Import PyNum.

(** ** Penalty table *)

Definition SAFETY_HAZARD : string := "安全隐患".
Definition OTHER_ERROR : string := "其他错误".

Definition ERROR_PENALTIES : gmap string Z :=
  list_to_map
    [ ("安全隐患"%string, 30);
      ("未按规定处理废弃物"%string, 15);
      ("未做好交接/记录"%string, 12);
      ("未挂标识牌"%string, 10);
      ("液封不合格"%string, 10);
      ("参数设置错误"%string, 10);
      ("操作顺序错误"%string, 8);
      ("遗漏清点"%string, 8);
      ("放置不当"%string, 7);
      ("未及时完成"%string, 7);
      ("清洁不彻底"%string, 6);
      ("操作不规范"%string, 5);
      ("工具/器具未归位"%string, 4);
      ("文件记录不规范"%string, 3);
      ("其他错误"%string, 5) ].

Definition PREDEFINED_ERROR_OPTIONS : list string :=
  [ "遗漏清点"; "放置不当"; "未做好交接/记录"; "未挂标识牌"; "清洁不彻底";
    "未按规定处理废弃物"; "工具/器具未归位"; "液封不合格"; "文件记录不规范";
    "操作顺序错误"; "参数设置错误"; "操作不规范"; "未及时完成"; "其他错误" ]%string.

(** [ERROR_PENALTIES.get(error_type, ERROR_PENALTIES.get("其他错误", 5))] *)
Definition penalty_of (error_type : string) : Z :=
  default (default 5 (ERROR_PENALTIES !! OTHER_ERROR))
          (ERROR_PENALTIES !! error_type).

(** The accumulation loop of [calculate_score]. *)
Definition total_penalty (error_types_list : list string) : Z :=
  fold_left (fun acc error_type => acc + penalty_of error_type)
            error_types_list 0.

(** ** Scoring engine *)

Definition calculate_score (completion_degree : number)
    (error_types_list : list string) : number :=
  let score := completion_degree in
  let total_error_penalty := total_penalty error_types_list in
  let score := sub_int score total_error_penalty in
  let has_safety_hazard_in_errors :=
    bool_decide (SAFETY_HAZARD ∈ error_types_list) in
  let score :=
    if ge completion_degree (Int 95) && (total_error_penalty =? 0) then
      Int 100
    else if ge completion_degree (Int 90)
            && negb has_safety_hazard_in_errors then
      PyNum.max (Int 85) score
    else if ge completion_degree (Int 80)
            && negb has_safety_hazard_in_errors then
      PyNum.max (Int 75) score
    else if lt completion_degree (Int 70) then
      PyNum.min score (Int 60)
    else score in
  PyNum.max (Int 0) (PyNum.min (Int 100) score).

(** The same computation cut in two, for the proofs: the if/elif chain on
    the completion degree [c], the penalty total [t], the hazard flag [h]
    and the penalised score [s], and the final [max(0, min(100, score))].
    [calculate_score_unfold] below states that [calculate_score] is their
    composition. *)
Definition apply_thresholds (c : number) (t : Z) (h : bool) (s : number)
    : number :=
  if ge c (Int 95) && (t =? 0) then Int 100
  else if ge c (Int 90) && negb h then PyNum.max (Int 85) s
  else if ge c (Int 80) && negb h then PyNum.max (Int 75) s
  else if lt c (Int 70) then PyNum.min s (Int 60)
  else s.

Definition clamp (score : number) : number :=
  PyNum.max (Int 0) (PyNum.min (Int 100) score).

(** ** Operation records and data frames *)

(** [datetime.date]: ordered by year, then month, then day. *)
Record date : Type := mkDate { year : Z; month : Z; day : Z }.

(** One entry of [st.session_state.operations]. *)
Record operation : Type := mkOperation {
  op_employee_id : string;
  op_date : date;
  op_operation_description : string;
  op_operation_remark : string;
  op_completion_degree : number;
  op_error_types : list string;
  op_has_safety_hazard_display : string
}.

(** One row of the frame built by [evaluate_all_operations]. *)
Record scored_op : Type := mkScoredOp {
  row_employee_id : string;
  row_date : date;
  row_score : number;
  row_operation_description : string;
  row_error_types : list string
}.

(** A data frame is the list of its rows, in index order; the frame with
    column names and no row, [pd.DataFrame(columns=...)], is [[]]. *)
Record daily_row : Type := mkDailyRow {
  daily_employee_id : string;
  daily_date : date;
  daily_avg_score : Q
}.

Record overall_row : Type := mkOverallRow {
  overall_employee_id : string;
  overall_avg_score : Q
}.

(** [DataFrame.empty] *)
Definition df_empty {A : Type} (df : list A) : bool :=
  match df with
  | [] => true
  | _ :: _ => false
  end.

Definition score_operation (op : operation) : scored_op :=
  {| row_employee_id := op_employee_id op;
     row_date := op_date op;
     row_score := calculate_score (op_completion_degree op) (op_error_types op);
     row_operation_description := op_operation_description op;
     row_error_types := op_error_types op |}.

(** The early return on an empty list, then the loop appending one scored
    row per record. *)
Definition evaluate_all_operations (operations_data : list operation)
    : list scored_op :=
  match operations_data with
  | [] => []
  | _ :: _ =>
      fold_left (fun scored_ops op => scored_ops ++ [score_operation op])
                operations_data []
  end.

(** ** [groupby(keys)['score'].mean().reset_index()]

    Groups come out sorted by key; the mean of a group is the exact
    quotient of the sum of its scores by their number. *)

Definition date_compare (a b : date) : comparison :=
  match year a ?= year b with
  | Eq => match month a ?= month b with
          | Eq => day a ?= day b
          | c => c
          end
  | c => c
  end.

Definition employee_date_compare (a b : string * date) : comparison :=
  match String.compare (fst a) (fst b) with
  | Eq => date_compare (snd a) (snd b)
  | c => c
  end.

Definition sum_scores (scores : list number) : Q :=
  fold_left (fun acc s => (acc + value s)%Q) scores 0%Q.

Definition mean (scores : list number) : Q :=
  Qred (sum_scores scores / inject_Z (Z.of_nat (length scores))).

Section GroupBy.
Context {K : Type} (compare : K -> K -> comparison).

Fixpoint group_add (k : K) (s : number) (groups : list (K * list number))
    : list (K * list number) :=
  match groups with
  | [] => [(k, [s])]
  | (k', scores) :: rest =>
      match compare k k' with
      | Lt => (k, [s]) :: groups
      | Eq => (k', scores ++ [s]) :: rest
      | Gt => (k', scores) :: group_add k s rest
      end
  end.

Definition groups_of (key : scored_op -> K) (df : list scored_op)
    : list (K * list number) :=
  fold_left (fun groups row => group_add (key row) (row_score row) groups)
            df [].

Definition groupby_mean (key : scored_op -> K) (df : list scored_op)
    : list (K * Q) :=
  map (fun g => (fst g, mean (snd g))) (groups_of key df).
End GroupBy.

(** The two aggregations of the scoring handler, each with its guard on
    [individual_op_scores_df.empty]. *)
Definition daily_averages (individual_op_scores_df : list scored_op)
    : list daily_row :=
  if negb (df_empty individual_op_scores_df) then
    map (fun g => mkDailyRow (fst (fst g)) (snd (fst g)) (snd g))
        (groupby_mean employee_date_compare
           (fun row => (row_employee_id row, row_date row))
           individual_op_scores_df)
  else [].

Definition overall_averages (individual_op_scores_df : list scored_op)
    : list overall_row :=
  if negb (df_empty individual_op_scores_df) then
    map (fun g => mkOverallRow (fst g) (snd g))
        (groupby_mean String.compare row_employee_id individual_op_scores_df)
  else [].

(** ** Session state and the three handlers *)

Record session_state : Type := mkState {
  operations : list operation;
  individual_op_scores_df : list scored_op;
  daily_employee_scores_df : list daily_row;
  overall_employee_scores_df : list overall_row
}.

Definition initial_state : session_state := mkState [] [] [] [].

(** The values of the widgets of [operation_input_form] at submission. *)
Record form_input : Type := mkForm {
  employee_id : string;
  operation_date : date;
  selected_operation_description : string;
  operation_remark : string;
  completion_degree : Z;
  selected_error_types : list string;
  has_safety_hazard : bool
}.

(** Truth value of a [str]. *)
Definition truthy (s : string) : bool :=
  match s with
  | EmptyString => false
  | String _ _ => true
  end.

Definition final_error_types (f : form_input) : list string :=
  if has_safety_hazard f then selected_error_types f ++ [SAFETY_HAZARD]
  else selected_error_types f.

Definition new_operation (f : form_input) : operation :=
  {| op_employee_id := employee_id f;
     op_date := operation_date f;
     op_operation_description := selected_operation_description f;
     op_operation_remark := operation_remark f;
     op_completion_degree := Int (completion_degree f);
     op_error_types := final_error_types f;
     op_has_safety_hazard_display :=
       if has_safety_hazard f then "是" else "否" |}.

(** "添加操作记录": the record is appended when the employee id and the
    description are non-empty; otherwise only a warning is shown. *)
Definition add_operation (f : form_input) (st : session_state)
    : session_state :=
  if truthy (employee_id f) && truthy (selected_operation_description f) then
    {| operations := operations st ++ [new_operation f];
       individual_op_scores_df := individual_op_scores_df st;
       daily_employee_scores_df := daily_employee_scores_df st;
       overall_employee_scores_df := overall_employee_scores_df st |}
  else st.

(** "清空所有记录" *)
Definition clear_all (st : session_state) : session_state := initial_state.

(** "开始评分并生成图表": a warning and no change without records, otherwise
    the three derived frames are recomputed from the whole store. *)
Definition run_scoring (st : session_state) : session_state :=
  if df_empty (operations st) then st
  else
    let df := evaluate_all_operations (operations st) in
    {| operations := operations st;
       individual_op_scores_df := df;
       daily_employee_scores_df := daily_averages df;
       overall_employee_scores_df := overall_averages df |}.

(** What the multiselect widget guarantees: every selected label is one
    of its options. *)
Definition multiselect_ok (f : form_input) : bool :=
  bool_decide (Forall (fun e => e ∈ PREDEFINED_ERROR_OPTIONS)
                      (selected_error_types f)).

Inductive action : Type :=
  | AddRecord (f : form_input)
  | ClearAll
  | RunScoring.

Definition action_ok (a : action) : bool :=
  match a with
  | AddRecord f => multiselect_ok f
  | ClearAll | RunScoring => true
  end.

Definition step (st : session_state) (a : action) : session_state :=
  match a with
  | AddRecord f => add_operation f st
  | ClearAll => clear_all st
  | RunScoring => run_scoring st
  end.

(** The session after a sequence of user actions. *)
Definition run (actions : list action) : session_state :=
  fold_left step actions initial_state.

(** A short session: one submission with the hazard box ticked, then a
    scoring run. *)
Definition sample_session : list action :=
  [ AddRecord (mkForm "A" (mkDate 2025 6 1) "地漏: 清洁、液封" "" 60
                      ["液封不合格"%string] true);
    RunScoring ].

(** The invariant of the record store: a record holds the severe category
    at most once. *)
Definition hazard_at_most_once (op : operation) : Prop :=
  (count_occ string_dec (op_error_types op) SAFETY_HAZARD <= 1)%nat.

(** Invariants of the session state used below. *)
Definition int_completion (op : operation) : Prop :=
  is_int (op_completion_degree op) = true.

Definition int_score_in_range (row : scored_op) : Prop :=
  exists k, row_score row = Int k /\ 0 <= k <= 100.

Definition score_in_range (s : number) : Prop :=
  (0 <= value s <= 100)%Q.

(** The derived frames belong together: the individual frame is the
    scoring of the records that were in the store at the last scoring run
    (a prefix of the store), and the two average frames are its
    aggregations. *)
Definition frames_consistent (st : session_state) : Prop :=
  (exists scored, scored `prefix_of` operations st
     /\ individual_op_scores_df st = map score_operation scored)
  /\ daily_employee_scores_df st
     = daily_averages (individual_op_scores_df st)
  /\ overall_employee_scores_df st
     = overall_averages (individual_op_scores_df st).

(** The scores of the group with key [k], or none when there is no such
    group. *)
Section GroupLookup.
Context {K : Type} (compare : K -> K -> comparison).

Fixpoint group_scores (k : K) (groups : list (K * list number))
    : list number :=
  match groups with
  | [] => []
  | (k', scores) :: rest =>
      match compare k k' with
      | Eq => scores
      | _ => group_scores k rest
      end
  end.
End GroupLookup.

#[global] Instance date_eq_dec : EqDecision date.
Proof. solve_decision. Defined.

(** ** Charts

    A Matplotlib figure is represented by what the code gives it: the x and
    y series that are plotted, the axis labels, the title and the limits
    of the y axis. *)
Record figure (X : Type) : Type := mkFigure {
  fig_x : list X;
  fig_y : list Q;
  fig_xlabel : string;
  fig_ylabel : string;
  fig_title : string;
  fig_ylim : Z * Z
}.

Arguments mkFigure {X}.
Arguments fig_x {X}.
Arguments fig_y {X}.
Arguments fig_xlabel {X}.
Arguments fig_ylabel {X}.
Arguments fig_title {X}.
Arguments fig_ylim {X}.

(** [sort_values('date')], as an insertion sort on the date that keeps
    rows of the same date in frame order. *)
Fixpoint insert_by_date (row : daily_row) (rows : list daily_row)
    : list daily_row :=
  match rows with
  | [] => [row]
  | row' :: rest =>
      match date_compare (daily_date row) (daily_date row') with
      | Gt => row' :: insert_by_date row rest
      | _ => row :: rows
      end
  end.

Definition sort_values_date (rows : list daily_row) : list daily_row :=
  fold_right insert_by_date [] rows.

Definition generate_daily_performance_chart
    (daily_scores_df : list daily_row) (employee : string)
    : option (figure date) :=
  let employee_data :=
    sort_values_date
      (filter (fun row => daily_employee_id row = employee) daily_scores_df) in
  if df_empty employee_data then None
  else
    Some {| fig_x := map daily_date employee_data;
            fig_y := map daily_avg_score employee_data;
            fig_xlabel := "日期";
            fig_ylabel := "每日平均评分 (0-100)";
            fig_title := employee ++ " 每日操作表现折线图";
            fig_ylim := (0, 100) |}.

Definition generate_overall_average_chart
    (overall_scores_df : list overall_row) : option (figure string) :=
  if df_empty overall_scores_df then None
  else
    Some {| fig_x := map overall_employee_id overall_scores_df;
            fig_y := map overall_avg_score overall_scores_df;
            fig_xlabel := "员工ID";
            fig_ylabel := "总平均评分 (0-100)";
            fig_title := "所有员工总平均评分对比";
            fig_ylim := (0, 100) |}.

(** Rows in order of date. *)
Abbreviation date_le :=
  (fun a b : daily_row => date_compare (daily_date a) (daily_date b) <> Gt).

Abbreviation employee_date_key :=
  (fun row : scored_op => (row_employee_id row, row_date row)).

(** A session with two employees, two dates and a scoring run, and the
    line chart it gives for employee "A". *)
Definition chart_session : list action :=
  [ AddRecord (mkForm "A" (mkDate 2025 6 2) "地漏: 清洁、液封" "" 100 [] false);
    AddRecord (mkForm "A" (mkDate 2025 6 1) "地漏: 清洁、液封" "" 60
                      ["液封不合格"%string] true);
    AddRecord (mkForm "A" (mkDate 2025 6 2) "地漏: 清洁、液封" "" 85
                      ["未挂标识牌"%string] false);
    AddRecord (mkForm "B" (mkDate 2025 6 1) "地漏: 清洁、液封" "" 92 [] false);
    RunScoring ].

Definition chart_session_line_A : figure date :=
  {| fig_x := [mkDate 2025 6 1; mkDate 2025 6 2];
     fig_y := [Qred 20; Qred 87.5];
     fig_xlabel := "日期";
     fig_ylabel := "每日平均评分 (0-100)";
     fig_title := "A 每日操作表现折线图";
     fig_ylim := (0, 100) |}.

(** ** The catalogue of operation descriptions *)

Record operation_description : Type := mkDescription {
  item : string;
  description : string
}.

Definition PREDEFINED_OPERATION_DESCRIPTIONS : list operation_description :=
  [
    mkDescription "中间产品"
      "清点、送规定地点放置，挂状态标识牌，与车间物料员做好交接并在记录上签字";
    mkDescription "样品瓶"
      "清点数量后交车间物料员退回中转站保存";
    mkDescription "废弃物"
      "清离现场、置垃圾暂存处销毁";
    mkDescription "文件记录"
      "与后续产品无关的清离现场";
    mkDescription "工具器具"
      "灭菌柜专用小车冲洗、湿抹、消毒或,清扫干净，置规定地点";
    mkDescription "废物贮器"
      "冲洗、清扫干净，无积液，,并置规定地点，挂状态标识牌";
    mkDescription "生产设备"
      "水浴式灭菌柜清洗消毒，无可见药物残留，,无油污，设备见本色，悬挂状态标识牌";
    mkDescription "工作场地"
      "生产场所清扫、湿抹或湿拖干净，,悬挂状态标识符合状态要求";
    mkDescription "地漏"
      "清洁、液封";
    mkDescription "清洁工具"
      "清洗干净，置规定处存放，挂状态标识牌" ].

(** [f"{op['item']}: {op['description']}"] for each entry. *)
Definition FORMATTED_OPERATION_OPTIONS : list string :=
  map (fun op => (item op ++ ": " ++ description op)%string)
      PREDEFINED_OPERATION_DESCRIPTIONS.

(** The display flag of a record says whether its error list holds the
    severe category. *)
Definition display_flag_faithful (op : operation) : Prop :=
  op_has_safety_hazard_display op = "是"%string
  <-> SAFETY_HAZARD ∈ op_error_types op.

(** * Properties *)

Example score_100_clean : calculate_score (Int 100) [] = Int 100.
Proof. vm_compute. reflexivity. Qed.

Example score_85_label :
  calculate_score (Int 85) ["未挂标识牌"%string] = Int 75.
Proof. vm_compute. reflexivity. Qed.

Example score_60_hazard :
  calculate_score (Int 60) [SAFETY_HAZARD] = Int 30.
Proof. vm_compute. reflexivity. Qed.

Example score_unknown_label :
  calculate_score (Int 75) ["no such label"%string] = Int 70.
Proof. vm_compute. reflexivity. Qed.

Example score_float_half : calculate_score (Float 92.5) [] = Float 92.5.
Proof. vm_compute. reflexivity. Qed.

Example score_float_floor :
  calculate_score (Float 90.5) ["未挂标识牌"%string] = Int 85.
Proof. vm_compute. reflexivity. Qed.

(** Two operations of "A" on 2 June, one on 1 June: the daily frame comes
    out sorted by employee, then date. *)
Example daily_averages_sorted :
  daily_averages
    [ mkScoredOp "A" (mkDate 2025 6 2) (Int 100) "" [];
      mkScoredOp "A" (mkDate 2025 6 1) (Int 30) "" [];
      mkScoredOp "A" (mkDate 2025 6 2) (Int 75) "" [] ]
  = [ mkDailyRow "A" (mkDate 2025 6 1) (Qred 30);
      mkDailyRow "A" (mkDate 2025 6 2) (Qred 87.5) ].
Proof. vm_compute. reflexivity. Qed.

(** ** The penalty table *)

Lemma penalty_table_values :
  map_Forall (fun _ p => 3 <= p <= 30) ERROR_PENALTIES.
Proof.
  apply map_Forall_to_list. vm_compute.
  repeat (constructor; [vm_compute; split; discriminate|]). constructor.
Qed.

Lemma penalty_of_bounds error_type : 3 <= penalty_of error_type <= 30.
Proof.
  unfold penalty_of.
  destruct (ERROR_PENALTIES !! error_type) as [p|] eqn:Hp; simpl.
  - exact (penalty_table_values _ _ Hp).
  - vm_compute. split; discriminate.
Qed.

Lemma penalty_of_hazard : penalty_of SAFETY_HAZARD = 30.
Proof. vm_compute. reflexivity. Qed.

Lemma fold_penalty_shift errors acc :
  fold_left (fun a e => a + penalty_of e) errors acc
  = acc + total_penalty errors.
Proof.
  unfold total_penalty. revert acc.
  induction errors as [|e errors IH]; intros acc; simpl.
  - lia.
  - rewrite IH, (IH (0 + penalty_of e)). lia.
Qed.

Lemma total_penalty_nil : total_penalty [] = 0.
Proof. reflexivity. Qed.

Lemma total_penalty_cons e errors :
  total_penalty (e :: errors) = penalty_of e + total_penalty errors.
Proof. unfold total_penalty at 1. simpl. apply fold_penalty_shift. Qed.

Lemma total_penalty_app errors1 errors2 :
  total_penalty (errors1 ++ errors2)
  = total_penalty errors1 + total_penalty errors2.
Proof.
  unfold total_penalty at 1. rewrite fold_left_app.
  fold (total_penalty errors1). apply fold_penalty_shift.
Qed.

Lemma total_penalty_nonneg errors : 0 <= total_penalty errors.
Proof.
  induction errors as [|e errors IH].
  - rewrite total_penalty_nil. lia.
  - rewrite total_penalty_cons. pose proof (penalty_of_bounds e). lia.
Qed.

Lemma total_penalty_zero errors : total_penalty errors = 0 <-> errors = [].
Proof.
  split; [|intros ->; reflexivity].
  destruct errors as [|e errors]; [reflexivity|].
  rewrite total_penalty_cons.
  pose proof (penalty_of_bounds e). pose proof (total_penalty_nonneg errors).
  lia.
Qed.

(** ** Numbers *)

Lemma value_sub_int a p : (value (sub_int a p) == value a - inject_Z p)%Q.
Proof.
  destruct a as [z|q]; simpl; [|reflexivity].
  unfold Z.sub. rewrite inject_Z_plus, inject_Z_opp. reflexivity.
Qed.

Lemma ge_spec a b :
  (ge a b = true /\ (value b <= value a)%Q)
  \/ (ge a b = false /\ (value a < value b)%Q).
Proof.
  unfold ge. destruct (Qle_bool (value b) (value a)) eqn:E.
  - left. split; [reflexivity|]. apply Qle_bool_iff, E.
  - right. split; [reflexivity|]. apply Qnot_le_lt. intros H.
    apply Qle_bool_iff in H. congruence.
Qed.

Lemma lt_spec a b :
  (lt a b = true /\ (value a < value b)%Q)
  \/ (lt a b = false /\ (value b <= value a)%Q).
Proof.
  unfold lt. destruct (ge_spec a b) as [[E H]|[E H]];
    unfold ge in E; rewrite E; simpl; auto.
Qed.

Lemma max_cases a b :
  ((value a < value b)%Q /\ PyNum.max a b = b)
  \/ ((value b <= value a)%Q /\ PyNum.max a b = a).
Proof.
  unfold PyNum.max. destruct (lt_spec a b) as [[E H]|[E H]]; rewrite E; auto.
Qed.

Lemma min_cases a b :
  ((value b < value a)%Q /\ PyNum.min a b = b)
  \/ ((value a <= value b)%Q /\ PyNum.min a b = a).
Proof.
  unfold PyNum.min. destruct (lt_spec b a) as [[E H]|[E H]]; rewrite E; auto.
Qed.

(** ** The threshold chain and the final clamp *)

Lemma calculate_score_unfold c errors :
  calculate_score c errors
  = clamp (apply_thresholds c (total_penalty errors)
             (bool_decide (SAFETY_HAZARD ∈ errors))
             (sub_int c (total_penalty errors))).
Proof. reflexivity. Qed.

Lemma clamp_cases x :
  ((value x <= 0)%Q /\ clamp x = Int 0)
  \/ ((0 < value x < 100)%Q /\ clamp x = x)
  \/ ((100 <= value x)%Q /\ clamp x = Int 100).
Proof.
  unfold clamp.
  destruct (min_cases (Int 100) x) as [[H ->]|[H ->]].
  - destruct (max_cases (Int 0) x) as [[H' ->]|[H' ->]];
      cbn [value] in *; unfold inject_Z in *.
    + right. left. split; [lra|reflexivity].
    + left. split; [lra|reflexivity].
  - destruct (max_cases (Int 0) (Int 100)) as [[H' ->]|[H' ->]];
      cbn [value] in *; unfold inject_Z in *.
    + right. right. split; [lra|reflexivity].
    + lra.
Qed.

Lemma apply_thresholds_cases c t h s :
  let r := apply_thresholds c t h s in
  ((95 <= value c)%Q /\ t = 0 /\ r = Int 100)
  \/ ((90 <= value c)%Q /\ ((value c < 95)%Q \/ t <> 0) /\ h = false
       /\ r = PyNum.max (Int 85) s)
  \/ ((80 <= value c < 90)%Q /\ h = false /\ r = PyNum.max (Int 75) s)
  \/ ((value c < 70)%Q /\ r = PyNum.min s (Int 60))
  \/ ((70 <= value c)%Q /\ ((value c < 80)%Q \/ h = true)
       /\ ((value c < 95)%Q \/ t <> 0) /\ r = s).
Proof.
  unfold apply_thresholds.
  destruct (ge_spec c (Int 95)) as [[-> H95]|[-> H95]];
  destruct (ge_spec c (Int 90)) as [[-> H90]|[-> H90]];
  destruct (ge_spec c (Int 80)) as [[-> H80]|[-> H80]];
  destruct (lt_spec c (Int 70)) as [[-> H70]|[-> H70]];
  destruct (Z.eqb_spec t 0) as [Ht|Ht]; destruct h;
  cbn [andb negb value] in *; unfold inject_Z in *; try lra;
  first
    [ left; repeat split; solve [auto | lra]
    | right; left; repeat split; solve [auto | lra]
    | right; right; left; repeat split; solve [auto | lra]
    | right; right; right; left; repeat split; solve [auto | lra]
    | right; right; right; right; repeat split; solve [auto | lra] ].
Qed.

(** Every path through the chain and the clamp for the completion degree
    [c], the penalty total [t] and the hazard flag [h], each with the
    ordering facts that select it. *)
Ltac thresholds_cases c t h :=
  let Hs := fresh "Hs" in let Hb := fresh "Hb" in let Hc := fresh "Hc" in
  pose proof (value_sub_int c t) as Hs;
  destruct (clamp_cases (apply_thresholds c t h (sub_int c t)))
    as [[Hc ->]|[[Hc ->]|[Hc ->]]];
  destruct (apply_thresholds_cases c t h (sub_int c t))
    as [(? & ? & Hb)|[(? & ? & ? & Hb)|[(? & ? & Hb)|[(? & Hb)
        |(? & ? & ? & Hb)]]]];
  rewrite Hb in *; clear Hb;
  repeat match goal with
  | H : context [PyNum.max ?a ?b] |- _ =>
      let E := fresh "E" in
      destruct (max_cases a b) as [[? E]|[? E]]; rewrite E in *; clear E
  | H : context [PyNum.min ?a ?b] |- _ =>
      let E := fresh "E" in
      destruct (min_cases a b) as [[? E]|[? E]]; rewrite E in *; clear E
  | |- context [PyNum.max ?a ?b] =>
      let E := fresh "E" in
      destruct (max_cases a b) as [[? E]|[? E]]; rewrite E in *; clear E
  | |- context [PyNum.min ?a ?b] =>
      let E := fresh "E" in
      destruct (min_cases a b) as [[? E]|[? E]]; rewrite E in *; clear E
  end;
  cbn [value] in *; unfold inject_Z in *.

Ltac score_cases c errors :=
  let Ht := fresh "Ht" in
  rewrite (calculate_score_unfold c errors);
  pose proof (total_penalty_nonneg errors) as Ht;
  rewrite Zle_Qle in Ht;
  thresholds_cases c (total_penalty errors)
                   (bool_decide (SAFETY_HAZARD ∈ errors)).

(** More penalty and a hazard flag that can only switch on never raise
    the score. *)
Lemma thresholds_monotone c t t' h h' :
  0 <= t <= t' -> (h = true -> h' = true) ->
  (value (clamp (apply_thresholds c t' h' (sub_int c t')))
   <= value (clamp (apply_thresholds c t h (sub_int c t))))%Q.
Proof.
  intros [Ht Htt'] Hh.
  assert (Hh' : h' = false -> h = false)
    by (destruct h; [rewrite Hh by reflexivity; discriminate|reflexivity]).
  assert (H0 : t' = 0 -> t = 0) by lia.
  rewrite Zle_Qle in Ht, Htt'.
  thresholds_cases c t' h'; thresholds_cases c t h;
    repeat match goal with
    | H : t' = 0 |- _ => rewrite H in *; rewrite (H0 eq_refl) in *; clear H
    | H : h' = false |- _ => rewrite (Hh' H) in *; clear H
    | H : h = true |- _ => rewrite (Hh H) in *; clear H
    end;
    try lra; try discriminate;
    repeat match goal with
    | H : _ \/ _ |- _ => destruct H
    end;
    solve [lra | congruence].
Qed.

(** An [int] completion degree always gives an [int] score. *)
Lemma calculate_score_int z errors :
  exists k, calculate_score (Int z) errors = Int k /\ 0 <= k <= 100.
Proof.
  score_cases (Int z) errors; cbn [sub_int value] in *;
    unfold inject_Z, Qle, Qlt, Qeq in *; cbn [Qnum Qden] in *;
    eexists; (split; [reflexivity|lia]).
Qed.

(** * The claims *)

(** C1: whatever the completion degree (inside or outside [0,100]) and
    whatever the error list, the score returned by [calculate_score] lies
    in [0,100]. *)
Theorem calculate_score_in_range c errors :
  (0 <= value (calculate_score c errors) <= 100)%Q.
Proof. score_cases c errors; lra. Qed.

(** C5: with no error, every completion degree in [95,100] scores
    exactly 100. *)
Theorem calculate_score_full_marks c :
  (95 <= value c <= 100)%Q -> calculate_score c [] = Int 100.
Proof.
  intros [H95 _]. unfold calculate_score.
  destruct (ge_spec c (Int 95)) as [[-> _]|[_ H]].
  - reflexivity.
  - cbn [value] in H; unfold inject_Z in H; lra.
Qed.

Lemma calculate_score_full_marks_witness :
  (95 <= value (Int 97) <= 100)%Q /\ calculate_score (Int 97) [] = Int 100.
Proof.
  assert (H : (95 <= value (Int 97) <= 100)%Q)
    by (cbn [value]; unfold inject_Z; lra).
  exact (conj H (calculate_score_full_marks (Int 97) H)).
Defined.

(** C6: below a completion degree of 70 the score is at most 60, whatever
    the errors (none, or the severe category included). *)
Theorem calculate_score_low_completion_cap c errors :
  (value c < 70)%Q -> (value (calculate_score c errors) <= 60)%Q.
Proof. intros H. score_cases c errors; lra. Qed.

Lemma calculate_score_low_completion_cap_witness :
  (value (Int 69) < 70)%Q
  /\ (value (calculate_score (Int 69) [SAFETY_HAZARD]) <= 60)%Q.
Proof.
  assert (H : (value (Int 69) < 70)%Q)
    by (cbn [value]; unfold inject_Z; lra).
  exact (conj H (calculate_score_low_completion_cap (Int 69) [SAFETY_HAZARD] H)).
Defined.

(** C9: appending one more error category to the error list never raises
    the score. *)
Theorem calculate_score_monotone c errors e :
  (value (calculate_score c (errors ++ [e]))
   <= value (calculate_score c errors))%Q.
Proof.
  rewrite !calculate_score_unfold.
  apply thresholds_monotone.
  - rewrite total_penalty_app, total_penalty_cons, total_penalty_nil.
    pose proof (total_penalty_nonneg errors).
    pose proof (penalty_of_bounds e). lia.
  - rewrite !bool_decide_eq_true. intros H.
    apply elem_of_app. left. exact H.
Qed.

(** C2 as stated fails: a second occurrence of the severe category is
    penalised again, 100 - 30 - 30 = 40 against 100 - 30 = 70. *)
Lemma duplicate_hazard_counterexample :
  ~ (forall c,
       calculate_score c [SAFETY_HAZARD; SAFETY_HAZARD]
       = calculate_score c [SAFETY_HAZARD]).
Proof. intros H. specialize (H (Int 100)). vm_compute in H. discriminate H. Qed.

(** C2, amended: every occurrence of the severe category is penalised, so
    a list holding it twice has a penalty total of 60 instead of 30; the
    score with two occurrences is never above the score with one, and the
    two are equal exactly when the completion degree is at most 30 (both
    scores are 0) or at least 160 (both are 100). *)
Theorem duplicate_hazard_penalised_per_occurrence c :
  total_penalty [SAFETY_HAZARD; SAFETY_HAZARD] = 60
  /\ total_penalty [SAFETY_HAZARD] = 30
  /\ (value (calculate_score c [SAFETY_HAZARD; SAFETY_HAZARD])
      <= value (calculate_score c [SAFETY_HAZARD]))%Q
  /\ ((value (calculate_score c [SAFETY_HAZARD; SAFETY_HAZARD])
       == value (calculate_score c [SAFETY_HAZARD]))%Q
      <-> (value c <= 30)%Q \/ (160 <= value c)%Q).
Proof.
  split; [reflexivity|]. split; [reflexivity|].
  rewrite !calculate_score_unfold.
  change (total_penalty [SAFETY_HAZARD; SAFETY_HAZARD]) with 60.
  change (total_penalty [SAFETY_HAZARD]) with 30.
  change (bool_decide (SAFETY_HAZARD ∈ [SAFETY_HAZARD; SAFETY_HAZARD]))
    with true.
  change (bool_decide (SAFETY_HAZARD ∈ [SAFETY_HAZARD])) with true.
  split; [apply thresholds_monotone; [lia|reflexivity]|].
  thresholds_cases c 60 true; thresholds_cases c 30 true;
    try discriminate;
    repeat match goal with
    | H : _ \/ _ |- _ => destruct H
    end;
    try discriminate; try lia;
    (split; [intros Heq|intros [Hl|Hr]]); lra.
Qed.

(** C3: the presence of the severe category switches off the floors of
    the >=90 and >=80 bands: from a completion degree of 80 on, a list that
    holds it gets the penalised score, only clamped; so 92 with the severe
    category scores strictly less than 92 with no error. *)
Theorem severe_category_disables_floors :
  (forall c errors,
     SAFETY_HAZARD ∈ errors -> (80 <= value c)%Q ->
     calculate_score c errors = clamp (sub_int c (total_penalty errors)))
  /\ (value (calculate_score (Int 92) [SAFETY_HAZARD])
      < value (calculate_score (Int 92) []))%Q.
Proof.
  split.
  - intros c errors Hin H80.
    rewrite calculate_score_unfold. f_equal.
    assert (Ht : total_penalty errors <> 0).
    { rewrite total_penalty_zero. intros ->. inversion Hin. }
    unfold apply_thresholds.
    rewrite (bool_decide_eq_true_2 _ Hin).
    destruct (Z.eqb_spec (total_penalty errors) 0) as [E|_]; [contradiction|].
    destruct (lt_spec c (Int 70)) as [[_ H]|[-> _]].
    + cbn [value] in H; unfold inject_Z in H; lra.
    + rewrite !andb_false_r. reflexivity.
  - vm_compute. reflexivity.
Qed.

Lemma severe_category_disables_floors_witness :
  SAFETY_HAZARD ∈ [SAFETY_HAZARD] /\ (80 <= value (Int 92))%Q
  /\ calculate_score (Int 92) [SAFETY_HAZARD] = Int 62.
Proof.
  assert (Hin : SAFETY_HAZARD ∈ [SAFETY_HAZARD]) by (apply list_elem_of_here).
  assert (H80 : (80 <= value (Int 92))%Q)
    by (cbn [value]; unfold inject_Z; lra).
  exact (conj Hin (conj H80
    (proj1 severe_category_disables_floors (Int 92) [SAFETY_HAZARD] Hin H80))).
Defined.

(** C7: a [float] completion degree can come back as a [float] that is no
    integer: 72.5 with no error falls in no band and is returned as it is,
    although the docstring of [calculate_score] announces an [int]. *)
Theorem calculate_score_float_not_integer :
  calculate_score (Float 72.5) [] = Float 72.5
  /\ is_int (calculate_score (Float 72.5) []) = false
  /\ forall z : Z, ~ (value (calculate_score (Float 72.5) []) == inject_Z z)%Q.
Proof.
  split; [vm_compute; reflexivity|]. split; [vm_compute; reflexivity|].
  intros z H.
  replace (calculate_score (Float 72.5) []) with (Float 72.5) in H
    by (vm_compute; reflexivity).
  unfold Qeq in H. cbn in H. lia.
Qed.

(** ** Aggregation *)

Lemma fold_append_scored ops acc :
  fold_left (fun scored_ops op => scored_ops ++ [score_operation op]) ops acc
  = acc ++ map score_operation ops.
Proof.
  revert acc. induction ops as [|op ops IH]; intros acc; simpl.
  - symmetry. apply app_nil_r.
  - rewrite IH, <- app_assoc. reflexivity.
Qed.

(** C8: an empty record list is scored to an empty frame, the daily and
    the overall averages of an empty frame are empty frames, and on any
    input [evaluate_all_operations] gives one row per record, in the order
    of the input: the row of a record carries its employee id, date,
    description and error list, and as score the value of
    [calculate_score] on its completion degree and error list. *)
Theorem empty_input_and_order_preserved :
  evaluate_all_operations [] = []
  /\ daily_averages [] = []
  /\ overall_averages [] = []
  /\ forall operations_data,
       Forall2
         (fun op row =>
            row_employee_id row = op_employee_id op
            /\ row_date row = op_date op
            /\ (value (row_score row)
                == value (calculate_score (op_completion_degree op)
                                          (op_error_types op)))%Q
            /\ row_operation_description row = op_operation_description op
            /\ row_error_types row = op_error_types op)
         operations_data (evaluate_all_operations operations_data).
Proof.
  repeat split.
  intros operations_data.
  assert (Hmap : evaluate_all_operations operations_data
                 = map score_operation operations_data).
  { destruct operations_data as [|op ops]; [reflexivity|].
    unfold evaluate_all_operations. apply fold_append_scored. }
  rewrite Hmap. clear Hmap.
  induction operations_data as [|op ops IH]; simpl; constructor.
  - simpl. repeat split; reflexivity.
  - exact IH.
Qed.

(** C4: the scenario of three records, whatever their dates, descriptions
    and remarks: the scores are 100, 75 and 30, and the overall averages
    computed by the scoring handler are 87.5 for "A" and 30 for "B". *)
Theorem scenario_scores_and_averages
    (d1 d2 d3 : date) (desc1 desc2 desc3 remark1 remark2 remark3 : string) :
  let records :=
    [ mkOperation "A" d1 desc1 remark1 (Int 100) [] "否";
      mkOperation "A" d2 desc2 remark2 (Int 85) ["未挂标识牌"%string] "否";
      mkOperation "B" d3 desc3 remark3 (Int 60) ["安全隐患"%string] "是" ] in
  let st := run_scoring (mkState records [] [] []) in
  map row_score (individual_op_scores_df st) = [Int 100; Int 75; Int 30]
  /\ map row_employee_id (individual_op_scores_df st)
     = ["A"; "A"; "B"]%string
  /\ overall_employee_scores_df st
     = [ mkOverallRow "A" (Qred 87.5); mkOverallRow "B" (Qred 30) ].
Proof. intros records st. vm_compute. repeat split. Qed.

(** ** Records created through the entry form *)

Lemma hazard_not_an_option : SAFETY_HAZARD ∉ PREDEFINED_ERROR_OPTIONS.
Proof. apply (bool_decide_unpack _). vm_compute. exact I. Qed.

Lemma final_error_types_hazard_count f :
  multiselect_ok f = true ->
  (count_occ string_dec (final_error_types f) SAFETY_HAZARD <= 1)%nat.
Proof.
  unfold multiselect_ok. rewrite bool_decide_eq_true, Forall_forall.
  intros Hsel.
  assert (H0 : count_occ string_dec (selected_error_types f) SAFETY_HAZARD
               = 0%nat).
  { apply count_occ_not_In. intros Hin. apply list_elem_of_In in Hin.
    exact (hazard_not_an_option (Hsel _ Hin)). }
  unfold final_error_types. destruct (has_safety_hazard f).
  - rewrite count_occ_app, H0. simpl.
    destruct (string_dec SAFETY_HAZARD SAFETY_HAZARD); lia.
  - lia.
Qed.

Lemma step_keeps_hazard_at_most_once st a :
  action_ok a = true ->
  Forall hazard_at_most_once (operations st) ->
  Forall hazard_at_most_once (operations (step st a)).
Proof.
  intros Hok Hst. destruct a as [f| |]; simpl.
  - unfold add_operation.
    destruct (truthy (employee_id f)
              && truthy (selected_operation_description f)); [|exact Hst].
    simpl. apply Forall_app. split; [exact Hst|].
    constructor; [|constructor].
    apply final_error_types_hazard_count, Hok.
  - constructor.
  - unfold run_scoring. destruct (df_empty (operations st)); exact Hst.
Qed.

Lemma fold_step_keeps_hazard_at_most_once actions st :
  forallb action_ok actions = true ->
  Forall hazard_at_most_once (operations st) ->
  Forall hazard_at_most_once (operations (fold_left step actions st)).
Proof.
  revert st. induction actions as [|a actions IH]; intros st Hok Hst; simpl.
  - exact Hst.
  - simpl in Hok. apply andb_true_iff in Hok as [Ha Hok].
    apply IH; [exact Hok|].
    apply step_keeps_hazard_at_most_once; assumption.
Qed.

(** C10: the multiselect catalogue has 14 labels and the severe category
    is not one of them; so, after any sequence of form submissions, clears
    and scoring runs, every stored record holds the severe category at
    most once. *)
Theorem form_records_hold_hazard_at_most_once actions :
  forallb action_ok actions = true ->
  (length PREDEFINED_ERROR_OPTIONS = 14%nat)
  /\ (SAFETY_HAZARD ∉ PREDEFINED_ERROR_OPTIONS)
  /\ Forall (fun op =>
       (count_occ string_dec (op_error_types op) SAFETY_HAZARD <= 1)%nat)
       (operations (run actions)).
Proof.
  intros Hok. split; [reflexivity|]. split; [exact hazard_not_an_option|].
  apply (fold_step_keeps_hazard_at_most_once actions initial_state Hok).
  constructor.
Qed.

Lemma form_records_hold_hazard_at_most_once_witness :
  forallb action_ok sample_session = true
  /\ Forall (fun op =>
       (count_occ string_dec (op_error_types op) SAFETY_HAZARD <= 1)%nat)
       (operations (run sample_session)).
Proof.
  assert (Hok : forallb action_ok sample_session = true)
    by (vm_compute; reflexivity).
  exact (conj Hok
    (proj2 (proj2 (form_records_hold_hazard_at_most_once sample_session Hok)))).
Defined.

(** * Further properties of the scoring function *)

Lemma total_penalty_permutation errors errors' :
  errors ≡ₚ errors' -> total_penalty errors = total_penalty errors'.
Proof.
  induction 1 as [|e l l' _ IH|e e' l|l l' l'' _ IH1 _ IH2].
  - reflexivity.
  - rewrite !total_penalty_cons, IH. reflexivity.
  - rewrite !total_penalty_cons. lia.
  - congruence.
Qed.

Lemma total_penalty_elem e errors :
  e ∈ errors -> penalty_of e <= total_penalty errors.
Proof.
  induction 1 as [e l|e e' l _ IH]; rewrite total_penalty_cons.
  - pose proof (total_penalty_nonneg l). lia.
  - pose proof (penalty_of_bounds e'). lia.
Qed.

Lemma total_penalty_nonempty errors : errors <> [] -> 3 <= total_penalty errors.
Proof.
  destruct errors as [|e errors]; [congruence|]. intros _.
  rewrite total_penalty_cons.
  pose proof (penalty_of_bounds e). pose proof (total_penalty_nonneg errors).
  lia.
Qed.

(** Splits the disjunctive facts left by [thresholds_cases]. *)
Ltac disjunctions :=
  repeat match goal with
  | H : _ \/ _ |- _ => destruct H
  end.

(** X1: the score depends on the error list only up to the order of its
    entries. *)
Theorem calculate_score_permutation c errors errors' :
  errors ≡ₚ errors' -> calculate_score c errors = calculate_score c errors'.
Proof.
  intros Hp. unfold calculate_score.
  rewrite (total_penalty_permutation _ _ Hp).
  rewrite (bool_decide_ext (SAFETY_HAZARD ∈ errors) (SAFETY_HAZARD ∈ errors'))
    by (rewrite Hp; reflexivity).
  reflexivity.
Qed.

Lemma calculate_score_permutation_witness :
  ["未挂标识牌"; "安全隐患"]%string ≡ₚ ["安全隐患"; "未挂标识牌"]%string
  /\ calculate_score (Int 90) ["未挂标识牌"; "安全隐患"]%string
     = calculate_score (Int 90) ["安全隐患"; "未挂标识牌"]%string.
Proof.
  assert (Hp : ["未挂标识牌"; "安全隐患"]%string
               ≡ₚ ["安全隐患"; "未挂标识牌"]%string) by (apply perm_swap).
  exact (conj Hp (calculate_score_permutation (Int 90) _ _ Hp)).
Defined.

(** X2: a label that is no key of [ERROR_PENALTIES] costs 5 points and
    scores exactly as the label "其他错误" would in its place. *)
Theorem unknown_label_scored_as_other c e errors :
  ERROR_PENALTIES !! e = None ->
  penalty_of e = 5
  /\ calculate_score c (e :: errors) = calculate_score c (OTHER_ERROR :: errors).
Proof.
  intros Hnone.
  assert (Hp : penalty_of e = 5) by (unfold penalty_of; rewrite Hnone; reflexivity).
  split; [exact Hp|].
  assert (Hne : e <> SAFETY_HAZARD).
  { intros ->. vm_compute in Hnone. discriminate Hnone. }
  unfold calculate_score.
  rewrite !total_penalty_cons, Hp.
  change (penalty_of OTHER_ERROR) with 5.
  rewrite (bool_decide_ext (SAFETY_HAZARD ∈ e :: errors)
                           (SAFETY_HAZARD ∈ OTHER_ERROR :: errors)).
  - reflexivity.
  - rewrite !elem_of_cons. split; intros [H|H]; auto; [congruence|].
    vm_compute in H. discriminate H.
Qed.

Lemma unknown_label_scored_as_other_witness :
  ERROR_PENALTIES !! "typo"%string = None
  /\ penalty_of "typo" = 5
  /\ calculate_score (Int 80) ["typo"%string]
     = calculate_score (Int 80) [OTHER_ERROR].
Proof.
  assert (H : ERROR_PENALTIES !! "typo"%string = None)
    by (vm_compute; reflexivity).
  exact (conj H (unknown_label_scored_as_other (Int 80) "typo" [] H)).
Defined.

(** X3: for a fixed error list, a higher completion degree never gives a
    lower score. *)
Theorem calculate_score_monotone_completion c c' errors :
  (value c <= value c')%Q ->
  (value (calculate_score c errors) <= value (calculate_score c' errors))%Q.
Proof.
  intros Hcc'. rewrite !calculate_score_unfold.
  pose proof (total_penalty_nonneg errors) as Ht. rewrite Zle_Qle in Ht.
  generalize dependent (total_penalty errors). intros t Ht.
  generalize (bool_decide (SAFETY_HAZARD ∈ errors)). intros h.
  thresholds_cases c t h; thresholds_cases c' t h; disjunctions;
    solve [lra | congruence].
Qed.

Lemma calculate_score_monotone_completion_witness :
  (value (Int 79) <= value (Float 80.5))%Q
  /\ (value (calculate_score (Int 79) [SAFETY_HAZARD])
      <= value (calculate_score (Float 80.5) [SAFETY_HAZARD]))%Q.
Proof.
  assert (H : (value (Int 79) <= value (Float 80.5))%Q)
    by (cbn [value]; unfold inject_Z; lra).
  exact (conj H (calculate_score_monotone_completion _ _ [SAFETY_HAZARD] H)).
Defined.

(** X4: without the severe category, a completion degree of at least 80
    guarantees a score of at least 75, and one of at least 90 a score of
    at least 85, whatever the other penalties. *)
Theorem floors_without_severe_category c errors :
  SAFETY_HAZARD ∉ errors -> (80 <= value c)%Q ->
  (75 <= value (calculate_score c errors))%Q
  /\ ((90 <= value c)%Q -> (85 <= value (calculate_score c errors))%Q).
Proof.
  intros Hnot H80. rewrite calculate_score_unfold.
  rewrite (bool_decide_eq_false_2 _ Hnot).
  pose proof (total_penalty_nonneg errors) as Ht. rewrite Zle_Qle in Ht.
  generalize dependent (total_penalty errors). intros t Ht.
  thresholds_cases c t false; disjunctions;
    (split; [|intros H90]); solve [lra | congruence].
Qed.

Lemma floors_without_severe_category_witness :
  (SAFETY_HAZARD ∉ ["未按规定处理废弃物"; "未做好交接/记录"]%string)
  /\ (80 <= value (Int 90))%Q
  /\ (75 <= value (calculate_score (Int 90)
                     ["未按规定处理废弃物"; "未做好交接/记录"]%string))%Q.
Proof.
  assert (Hnot : SAFETY_HAZARD
                 ∉ ["未按规定处理废弃物"; "未做好交接/记录"]%string)
    by (apply (bool_decide_unpack _); vm_compute; exact I).
  assert (H80 : (80 <= value (Int 90))%Q)
    by (cbn [value]; unfold inject_Z; lra).
  exact (conj Hnot (conj H80
    (proj1 (floors_without_severe_category (Int 90) _ Hnot H80)))).
Defined.

(** X5: with no error and a completion degree in [0,95), the score is the
    completion degree itself, except on (60,70) where it is held at 60. *)
Theorem no_error_score_profile c :
  (0 <= value c < 95)%Q ->
  ((value c <= 60)%Q \/ (70 <= value c)%Q ->
     (value (calculate_score c []) == value c)%Q)
  /\ ((60 <= value c < 70)%Q -> (value (calculate_score c []) == 60)%Q).
Proof.
  intros Hc. rewrite calculate_score_unfold.
  change (total_penalty []) with 0.
  change (bool_decide (SAFETY_HAZARD ∈ [])) with false.
  thresholds_cases c 0 false; disjunctions;
    (split; [intros [Hl|Hr]|intros Hm]); solve [lra | congruence].
Qed.

Lemma no_error_score_profile_witness :
  (0 <= value (Int 65) < 95)%Q
  /\ (value (calculate_score (Int 65) []) == 60)%Q.
Proof.
  assert (Hc : (0 <= value (Int 65) < 95)%Q)
    by (cbn [value]; unfold inject_Z; lra).
  assert (Hm : (60 <= value (Int 65) < 70)%Q)
    by (cbn [value]; unfold inject_Z; lra).
  exact (conj Hc (proj2 (no_error_score_profile (Int 65) Hc) Hm)).
Defined.

(** X6: in the slider range (completion degree at most 100), one error of
    any kind keeps the score at 97 or below. *)
Theorem any_error_caps_score c errors :
  errors <> [] -> (value c <= 100)%Q ->
  (value (calculate_score c errors) <= 97)%Q.
Proof.
  intros Hne Hc. rewrite calculate_score_unfold.
  pose proof (total_penalty_nonempty errors Hne) as Ht. rewrite Zle_Qle in Ht.
  generalize dependent (total_penalty errors). intros t Ht.
  generalize (bool_decide (SAFETY_HAZARD ∈ errors)). intros h.
  thresholds_cases c t h; disjunctions;
    try match goal with H : t = 0 |- _ => rewrite H in * end;
    solve [lra | congruence].
Qed.

Lemma any_error_caps_score_witness :
  ["文件记录不规范"%string] <> [] /\ (value (Int 100) <= 100)%Q
  /\ (value (calculate_score (Int 100) ["文件记录不规范"%string]) <= 97)%Q.
Proof.
  assert (Hne : ["文件记录不规范"%string] <> []) by discriminate.
  assert (Hc : (value (Int 100) <= 100)%Q)
    by (cbn [value]; unfold inject_Z; lra).
  exact (conj Hne (conj Hc (any_error_caps_score (Int 100) _ Hne Hc))).
Defined.

(** X7: in the slider range, a record with the severe category scores at
    most 70, and at most 40 when its completion degree is below 70. *)
Theorem severe_category_caps_score c errors :
  SAFETY_HAZARD ∈ errors -> (value c <= 100)%Q ->
  (value (calculate_score c errors) <= 70)%Q
  /\ ((value c < 70)%Q -> (value (calculate_score c errors) <= 40)%Q).
Proof.
  intros Hin Hc. rewrite calculate_score_unfold.
  rewrite (bool_decide_eq_true_2 _ Hin).
  pose proof (total_penalty_elem _ _ Hin) as Ht.
  rewrite penalty_of_hazard, Zle_Qle in Ht.
  generalize dependent (total_penalty errors). intros t Ht.
  thresholds_cases c t true; disjunctions;
    try match goal with H : t = 0 |- _ => rewrite H in * end;
    (split; [|intros H70]); solve [lra | congruence].
Qed.

Lemma severe_category_caps_score_witness :
  SAFETY_HAZARD ∈ [SAFETY_HAZARD] /\ (value (Int 100) <= 100)%Q
  /\ (value (calculate_score (Int 100) [SAFETY_HAZARD]) <= 70)%Q.
Proof.
  assert (Hin : SAFETY_HAZARD ∈ [SAFETY_HAZARD]) by (apply list_elem_of_here).
  assert (Hc : (value (Int 100) <= 100)%Q)
    by (cbn [value]; unfold inject_Z; lra).
  exact (conj Hin (conj Hc
    (proj1 (severe_category_caps_score (Int 100) _ Hin Hc)))).
Defined.

(** * The penalty table and the form *)

Lemma penalty_table_keys e :
  is_Some (ERROR_PENALTIES !! e)
  <-> e = SAFETY_HAZARD \/ e ∈ PREDEFINED_ERROR_OPTIONS.
Proof.
  split.
  - intros [p Hp]. unfold ERROR_PENALTIES in Hp.
    apply elem_of_list_to_map_2 in Hp.
    repeat (apply elem_of_cons in Hp as [Hp|Hp];
            [injection Hp as -> _;
             first [left; reflexivity
                   |right; apply (bool_decide_unpack _); vm_compute; exact I]
            |]).
    inversion Hp.
  - intros [->|Hin]; [vm_compute; eauto|].
    unfold PREDEFINED_ERROR_OPTIONS in Hin.
    repeat (apply elem_of_cons in Hin as [->|Hin]; [vm_compute; eauto|]).
    inversion Hin.
Qed.

(** X8: the keys of [ERROR_PENALTIES] are exactly the 14 multiselect
    options and the severe category; so every label of a record made by the
    form has its own entry and the fallback penalty is never used for it. *)
Theorem form_labels_have_table_entries :
  (forall e, is_Some (ERROR_PENALTIES !! e)
             <-> e = SAFETY_HAZARD \/ e ∈ PREDEFINED_ERROR_OPTIONS)
  /\ (forall f, multiselect_ok f = true ->
        Forall (fun e => ERROR_PENALTIES !! e = Some (penalty_of e))
               (final_error_types f)).
Proof.
  split; [exact penalty_table_keys|].
  intros f Hok. unfold multiselect_ok in Hok.
  rewrite bool_decide_eq_true in Hok.
  assert (Hall : Forall (fun e => is_Some (ERROR_PENALTIES !! e))
                        (final_error_types f)).
  { unfold final_error_types. destruct (has_safety_hazard f).
    - apply Forall_app. split.
      + eapply Forall_impl; [exact Hok|]. intros e He.
        apply penalty_table_keys. right. exact He.
      + constructor; [|constructor]. apply penalty_table_keys. left. reflexivity.
    - eapply Forall_impl; [exact Hok|]. intros e He.
      apply penalty_table_keys. right. exact He. }
  eapply Forall_impl; [exact Hall|]. intros e [p Hp].
  unfold penalty_of. rewrite Hp. reflexivity.
Qed.

Lemma form_labels_have_table_entries_witness :
  multiselect_ok (mkForm "A" (mkDate 2025 6 1) "地漏: 清洁、液封" "" 60
                         ["液封不合格"%string] true) = true
  /\ Forall (fun e => ERROR_PENALTIES !! e = Some (penalty_of e))
            ["液封不合格"%string; SAFETY_HAZARD].
Proof.
  assert (Hok : multiselect_ok
                  (mkForm "A" (mkDate 2025 6 1) "地漏: 清洁、液封" "" 60
                          ["液封不合格"%string] true) = true)
    by (vm_compute; reflexivity).
  exact (conj Hok (proj2 form_labels_have_table_entries _ Hok)).
Defined.

(** * The session *)

Lemma evaluate_all_operations_map ops :
  evaluate_all_operations ops = map score_operation ops.
Proof.
  destruct ops as [|op ops]; [reflexivity|].
  unfold evaluate_all_operations. apply fold_append_scored.
Qed.

Lemma score_operation_int op :
  int_completion op -> int_score_in_range (score_operation op).
Proof.
  unfold int_completion, int_score_in_range. simpl.
  destruct (op_completion_degree op) as [z|q]; [|discriminate]. intros _.
  apply calculate_score_int.
Qed.

(** Proving an invariant of the session: it holds initially and every
    handler keeps it. *)
Lemma session_invariant (P : session_state -> Prop) :
  P initial_state ->
  (forall st a, P st -> P (step st a)) ->
  forall actions, P (run actions).
Proof.
  intros Hinit Hstep actions. unfold run.
  generalize initial_state Hinit.
  induction actions as [|a actions IH]; intros st Hst; simpl.
  - exact Hst.
  - apply IH, Hstep, Hst.
Qed.

(** X9: whatever the user does, the completion degrees in the store are
    [int]s, and every score in the individual frame is an [int] between 0
    and 100. *)
Theorem session_scores_are_bounded_ints actions :
  Forall (fun op => is_int (op_completion_degree op) = true)
         (operations (run actions))
  /\ Forall (fun row => exists k, row_score row = Int k /\ 0 <= k <= 100)
            (individual_op_scores_df (run actions)).
Proof.
  apply (session_invariant (fun st =>
           Forall int_completion (operations st)
           /\ Forall int_score_in_range (individual_op_scores_df st))).
  - split; constructor.
  - intros st a [Hops Hdf]. destruct a as [f| |]; simpl.
    + unfold add_operation.
      destruct (truthy (employee_id f)
                && truthy (selected_operation_description f)); [|auto].
      simpl. split; [|exact Hdf].
      apply Forall_app. split; [exact Hops|].
      constructor; [reflexivity|constructor].
    + split; constructor.
    + unfold run_scoring. destruct (df_empty (operations st)); [auto|].
      simpl. split; [exact Hops|].
      rewrite evaluate_all_operations_map. apply Forall_map.
      eapply Forall_impl; [exact Hops|]. apply score_operation_int.
Qed.

Lemma run_frames_consistent actions : frames_consistent (run actions).
Proof.
  apply session_invariant.
  - split; [exists []; split; [apply prefix_nil|reflexivity]|].
    split; reflexivity.
  - intros st a ([scored [Hpre Hdf]] & Hdaily & Hoverall).
    destruct a as [f| |]; simpl.
    + unfold add_operation.
      destruct (truthy (employee_id f)
                && truthy (selected_operation_description f)).
      * simpl. split; [|split; assumption].
        exists scored. split; [|exact Hdf].
        apply prefix_app_r, Hpre.
      * split; [exists scored; auto|split; assumption].
    + split; [exists []; split; [apply prefix_nil|reflexivity]|].
      split; reflexivity.
    + unfold run_scoring. destruct (df_empty (operations st)).
      * split; [exists scored; auto|split; assumption].
      * simpl. split; [|split; reflexivity].
        exists (operations st). split; [reflexivity|].
        apply evaluate_all_operations_map.
Qed.

Lemma run_snoc actions a : run (actions ++ [a]) = step (run actions) a.
Proof. unfold run. rewrite fold_left_app. reflexivity. Qed.


(** X11: a scoring run leaves the store as it is, and pressing the button
    again changes nothing more. *)
Theorem run_scoring_idempotent st :
  operations (run_scoring st) = operations st
  /\ run_scoring (run_scoring st) = run_scoring st.
Proof.
  unfold run_scoring.
  destruct (operations st) as [|op ops] eqn:Hops; simpl.
  - rewrite Hops. split; reflexivity.
  - split; reflexivity.
Qed.

(** X12: right after a scoring run the frames are up to date: in any
    session that ends with the scoring button, the individual frame is the
    scoring of the whole store, record by record and in order. *)
Theorem frames_fresh_after_scoring actions :
  let st := run (actions ++ [RunScoring]) in
  operations st = operations (run actions)
  /\ individual_op_scores_df st = map score_operation (operations st).
Proof.
  cbv zeta. rewrite run_snoc. simpl.
  destruct (run_frames_consistent actions) as ([scored [Hpre Hdf]] & _ & _).
  unfold run_scoring.
  destruct (operations (run actions)) as [|op ops] eqn:Hops; simpl.
  - rewrite Hops. split; [reflexivity|].
    apply prefix_nil_inv in Hpre. rewrite Hdf, Hpre. reflexivity.
  - split; [reflexivity|]. apply fold_append_scored.
Qed.

(** * Aggregation by key *)

Section GroupByFacts.
Context {K : Type} `{EqDecision K} (compare : K -> K -> comparison).
Hypothesis compare_eq : forall a b, compare a b = Eq <-> a = b.
Hypothesis compare_antisym : forall a b, compare a b = CompOpp (compare b a).
Hypothesis compare_trans :
  forall a b c, compare a b = Lt -> compare b c = Lt -> compare a c = Lt.

#[local] Abbreviation before := (fun a b : K => compare a b = Lt).
#[local] Abbreviation keys groups := (map fst groups) (only parsing).

Lemma compare_gt_lt a b : compare a b = Gt -> compare b a = Lt.
Proof. rewrite (compare_antisym b a). intros ->. reflexivity. Qed.

Lemma compare_lt_ne a b : compare a b = Lt -> a <> b.
Proof. intros H E. apply compare_eq in E. congruence. Qed.

Lemma group_add_keys k s (groups : list (K * list number)) k' :
  k' ∈ keys (group_add compare k s groups) <-> k' = k \/ k' ∈ keys groups.
Proof.
  induction groups as [|[k1 vs] rest IH]; simpl.
  - rewrite list_elem_of_singleton, elem_of_nil. tauto.
  - destruct (compare k k1) eqn:E; simpl.
    + apply compare_eq in E as ->. rewrite !elem_of_cons. tauto.
    + rewrite !elem_of_cons. simpl. tauto.
    + rewrite !elem_of_cons, IH. tauto.
Qed.

Lemma group_add_sorted k s (groups : list (K * list number)) :
  StronglySorted before (keys groups) ->
  StronglySorted before (keys (group_add compare k s groups)).
Proof.
  induction groups as [|[k1 vs] rest IH]; simpl; intros Hs.
  - repeat constructor.
  - apply StronglySorted_cons in Hs as [Hall Hs]. simpl in *.
    destruct (compare k k1) eqn:E; simpl.
    + apply StronglySorted_cons. auto.
    + apply StronglySorted_cons. split.
      * constructor; [exact E|].
        eapply Forall_impl; [exact Hall|]. intros k2 H12. simpl in H12.
        exact (compare_trans _ _ _ E H12).
      * apply StronglySorted_cons. auto.
    + apply StronglySorted_cons. split; [|auto].
      apply Forall_forall. intros k2 Hk2.
      apply group_add_keys in Hk2 as [->|Hk2].
      * apply compare_gt_lt, E.
      * rewrite Forall_forall in Hall. apply Hall, Hk2.
Qed.

Lemma group_scores_before k (groups : list (K * list number)) :
  Forall (before k) (keys groups) -> group_scores compare k groups = [].
Proof.
  induction groups as [|[k1 vs] rest IH]; simpl; intros H; [reflexivity|].
  apply Forall_cons in H as [H1 H]. rewrite H1. apply IH, H.
Qed.

Lemma group_scores_add k s (groups : list (K * list number)) k' :
  StronglySorted before (keys groups) ->
  group_scores compare k' (group_add compare k s groups)
  = if decide (k' = k) then group_scores compare k groups ++ [s]
    else group_scores compare k' groups.
Proof.
  induction groups as [|[k1 vs] rest IH]; simpl; intros Hs.
  - destruct (decide (k' = k)) as [Heq|Hne]; [subst k'|].
    + rewrite (proj2 (compare_eq k k) eq_refl). reflexivity.
    + destruct (compare k' k) eqn:E; [|reflexivity..].
      apply compare_eq in E. contradiction.
  - apply StronglySorted_cons in Hs as [Hall Hs]. simpl in *.
    destruct (compare k k1) eqn:E; simpl.
    + apply compare_eq in E as E'. subst k1.
      destruct (decide (k' = k)) as [Heq|Hne]; [subst k'|].
      * rewrite ?(proj2 (compare_eq k k) eq_refl), ?E. reflexivity.
      * destruct (compare k' k) eqn:E1; [|reflexivity..].
        apply compare_eq in E1. contradiction.
    + destruct (decide (k' = k)) as [Heq|Hne]; [subst k'|].
      * rewrite (proj2 (compare_eq k k) eq_refl), ?E.
        rewrite group_scores_before; [reflexivity|].
        eapply Forall_impl; [exact Hall|]. intros k2 H12. simpl in H12.
        exact (compare_trans _ _ _ E H12).
      * destruct (compare k' k) eqn:E1; [|reflexivity..].
        apply compare_eq in E1. contradiction.
    + destruct (decide (k' = k)) as [Heq|Hne]; [subst k'|].
      * rewrite ?E, IH by exact Hs. reflexivity.
      * destruct (compare k' k1) eqn:E1; [reflexivity|..];
          rewrite IH by exact Hs; reflexivity.
Qed.

Lemma group_scores_entry k vs (groups : list (K * list number)) :
  StronglySorted before (keys groups) ->
  (k, vs) ∈ groups -> group_scores compare k groups = vs.
Proof.
  induction groups as [|[k1 vs1] rest IH]; simpl; intros Hs Hin.
  - inversion Hin.
  - apply StronglySorted_cons in Hs as [Hall Hs]. simpl in *.
    apply elem_of_cons in Hin as [Heq|Hin].
    + injection Heq as -> ->.
      rewrite (proj2 (compare_eq k1 k1) eq_refl). reflexivity.
    + assert (H1 : compare k1 k = Lt).
      { rewrite Forall_forall in Hall. apply Hall.
        apply list_elem_of_fmap. exists (k, vs). auto. }
      rewrite (compare_antisym k k1), H1. simpl. apply IH; assumption.
Qed.

Lemma fold_group_add_spec (key : scored_op -> K) df groups :
  StronglySorted before (keys groups) ->
  let result :=
    fold_left (fun groups row =>
                 group_add compare (key row) (row_score row) groups)
              df groups in
  StronglySorted before (keys result)
  /\ (forall k, k ∈ keys result <-> k ∈ keys groups \/ k ∈ map key df)
  /\ (forall k, group_scores compare k result
                = group_scores compare k groups
                  ++ map row_score (filter (fun row => key row = k) df)).
Proof.
  revert groups. induction df as [|row df IH]; intros groups Hs; simpl.
  - split; [exact Hs|]. split.
    + intros k. rewrite elem_of_nil. tauto.
    + intros k. rewrite app_nil_r. reflexivity.
  - destruct (IH _ (group_add_sorted (key row) (row_score row) _ Hs))
      as (Hs' & Hkeys & Hscores).
    split; [exact Hs'|]. split.
    + intros k. rewrite Hkeys, group_add_keys, elem_of_cons. tauto.
    + intros k. rewrite Hscores, group_scores_add by exact Hs.
      rewrite filter_cons.
      destruct (decide (k = key row)) as [->|Hne].
      * rewrite decide_True by reflexivity. simpl.
        rewrite <- app_assoc. reflexivity.
      * rewrite decide_False by congruence. reflexivity.
Qed.

(** The groups of a frame: keys in strictly ascending order, one group
    per key of the frame, each holding the scores of the rows with its key
    in frame order. *)
Lemma groups_of_spec (key : scored_op -> K) df :
  StronglySorted before (keys (groups_of compare key df))
  /\ (forall k, k ∈ keys (groups_of compare key df) <-> k ∈ map key df)
  /\ (forall k vs, (k, vs) ∈ groups_of compare key df ->
        vs = map row_score (filter (fun row => key row = k) df)).
Proof.
  destruct (fold_group_add_spec key df [] (SSorted_nil _))
    as (Hs & Hkeys & Hscores).
  fold (groups_of compare key df) in Hs, Hkeys, Hscores.
  split; [exact Hs|]. split.
  - intros k. rewrite Hkeys, elem_of_nil. tauto.
  - intros k vs Hin. rewrite <- (group_scores_entry k vs _ Hs Hin).
    apply Hscores.
Qed.

End GroupByFacts.

(** ** The orders on employee ids and on (employee id, date) keys *)

Lemma string_compare_eq a b : String.compare a b = Eq <-> a = b.
Proof. apply String_as_OT.cmp_eq. Qed.

Lemma string_compare_trans a b c :
  String.compare a b = Lt -> String.compare b c = Lt ->
  String.compare a c = Lt.
Proof.
  intros Hab Hbc. apply String_as_OT.cmp_lt.
  apply String_as_OT.cmp_lt in Hab, Hbc.
  exact (String_as_OT.lt_trans _ _ _ Hab Hbc).
Qed.

Ltac date_compare_cases :=
  unfold date_compare; simpl;
  repeat match goal with
  | |- context [?x ?= ?y] => destruct (Z.compare_spec x y)
  | H : context [?x ?= ?y] |- _ => destruct (Z.compare_spec x y)
  end;
  subst; try reflexivity; try discriminate; try lia.

Lemma date_compare_eq a b : date_compare a b = Eq <-> a = b.
Proof.
  destruct a as [y m d], b as [y' m' d']. split.
  - date_compare_cases.
  - intros [= -> -> ->]. date_compare_cases.
Qed.

Lemma date_compare_antisym a b :
  date_compare a b = CompOpp (date_compare b a).
Proof. destruct a as [y m d], b as [y' m' d']. date_compare_cases. Qed.

Lemma date_compare_trans a b c :
  date_compare a b = Lt -> date_compare b c = Lt -> date_compare a c = Lt.
Proof.
  destruct a as [y m d], b as [y' m' d'], c as [y'' m'' d''].
  date_compare_cases.
Qed.

Lemma employee_date_compare_eq a b : employee_date_compare a b = Eq <-> a = b.
Proof.
  destruct a as [e d], b as [e' d']. unfold employee_date_compare. simpl.
  split.
  - destruct (String.compare e e') eqn:E; try discriminate.
    apply string_compare_eq in E as ->.
    intros ->%date_compare_eq. reflexivity.
  - intros [= -> ->].
    rewrite (proj2 (string_compare_eq e' e') eq_refl).
    apply date_compare_eq. reflexivity.
Qed.

Lemma employee_date_compare_antisym a b :
  employee_date_compare a b = CompOpp (employee_date_compare b a).
Proof.
  destruct a as [e d], b as [e' d']. unfold employee_date_compare. simpl.
  rewrite (String.compare_antisym e e'), (date_compare_antisym d d').
  destruct (String.compare e' e); reflexivity.
Qed.

Lemma employee_date_compare_trans a b c :
  employee_date_compare a b = Lt -> employee_date_compare b c = Lt ->
  employee_date_compare a c = Lt.
Proof.
  destruct a as [e d], b as [e' d'], c as [e'' d''].
  unfold employee_date_compare. simpl.
  destruct (String.compare e e') eqn:E1; try discriminate;
    destruct (String.compare e' e'') eqn:E2; try discriminate;
    intros H1 H2.
  - apply string_compare_eq in E1 as ->. apply string_compare_eq in E2 as ->.
    rewrite (proj2 (string_compare_eq e'' e'') eq_refl).
    exact (date_compare_trans _ _ _ H1 H2).
  - apply string_compare_eq in E1 as ->. rewrite E2. reflexivity.
  - apply string_compare_eq in E2 as ->. rewrite E1. reflexivity.
  - rewrite (string_compare_trans _ _ _ E1 E2). reflexivity.
Qed.

(** ** The two average frames *)

Lemma overall_averages_groups df :
  overall_averages df
  = map (fun g => mkOverallRow (fst g) (mean (snd g)))
        (groups_of String.compare row_employee_id df).
Proof.
  destruct df as [|row df]; [reflexivity|].
  unfold overall_averages, groupby_mean. simpl negb. cbv iota.
  rewrite map_map. reflexivity.
Qed.

Lemma daily_averages_groups df :
  daily_averages df
  = map (fun g => mkDailyRow (fst (fst g)) (snd (fst g)) (mean (snd g)))
        (groups_of employee_date_compare
           (fun row => (row_employee_id row, row_date row)) df).
Proof.
  destruct df as [|row df]; [reflexivity|].
  unfold daily_averages, groupby_mean. simpl negb. cbv iota.
  rewrite map_map. reflexivity.
Qed.

(** X13: the overall frame has one row per employee of the individual
    frame, in strictly ascending order of employee id, and the average of
    a row is the mean of the scores of that employee's rows. *)
Theorem overall_averages_spec df :
  StronglySorted (fun a b => String.compare a b = Lt)
                 (map overall_employee_id (overall_averages df))
  /\ (forall e, e ∈ map overall_employee_id (overall_averages df)
                <-> e ∈ map row_employee_id df)
  /\ (forall row, row ∈ overall_averages df ->
        overall_avg_score row
        = mean (map row_score
                  (filter (fun r => row_employee_id r = overall_employee_id row)
                          df))).
Proof.
  destruct (groups_of_spec String.compare string_compare_eq
              String.compare_antisym string_compare_trans row_employee_id df)
    as (Hs & Hkeys & Hscores).
  rewrite overall_averages_groups, map_map. simpl.
  split; [exact Hs|]. split; [exact Hkeys|].
  intros row Hrow. apply list_elem_of_fmap in Hrow as ([k vs] & -> & Hin).
  simpl. f_equal. exact (Hscores k vs Hin).
Qed.

(** X14: the daily frame has one row per (employee, date) pair of the
    individual frame, ordered by employee id and then by date, and the
    average of a row is the mean of the scores of that employee's rows of
    that date. *)
Theorem daily_averages_spec df :
  StronglySorted (fun a b => employee_date_compare a b = Lt)
                 (map (fun row => (daily_employee_id row, daily_date row))
                      (daily_averages df))
  /\ (forall e d,
        (e, d) ∈ map (fun row => (daily_employee_id row, daily_date row))
                     (daily_averages df)
        <-> (e, d) ∈ map (fun r => (row_employee_id r, row_date r)) df)
  /\ (forall row, row ∈ daily_averages df ->
        daily_avg_score row
        = mean (map row_score
                  (filter (fun r => (row_employee_id r, row_date r)
                                    = (daily_employee_id row, daily_date row))
                          df))).
Proof.
  destruct (groups_of_spec employee_date_compare employee_date_compare_eq
              employee_date_compare_antisym employee_date_compare_trans
              (fun r => (row_employee_id r, row_date r)) df)
    as (Hs & Hkeys & Hscores).
  rewrite daily_averages_groups, map_map. simpl.
  assert (Hmap : map (fun g : string * date * list number =>
                        (fst (fst g), snd (fst g)))
                     (groups_of employee_date_compare
                        (fun r => (row_employee_id r, row_date r)) df)
                 = map fst (groups_of employee_date_compare
                        (fun r => (row_employee_id r, row_date r)) df)).
  { apply map_ext. intros [[e d] vs]. reflexivity. }
  rewrite Hmap.
  split; [exact Hs|]. split; [intros e d; exact (Hkeys (e, d))|].
  intros row Hrow.
  apply list_elem_of_fmap in Hrow as ([[e d] vs] & -> & Hin).
  simpl. f_equal. exact (Hscores (e, d) vs Hin).
Qed.


(** ** Group sizes *)

Section GroupSizes.
Context {K : Type} (compare : K -> K -> comparison).

Lemma group_add_sizes k s (groups : list (K * list number)) :
  sum_list (map (fun g => length (snd g)) (group_add compare k s groups))
  = S (sum_list (map (fun g => length (snd g)) groups)).
Proof.
  induction groups as [|[k1 vs] rest IH]; simpl; [reflexivity|].
  destruct (compare k k1); simpl.
  - rewrite length_app. simpl. lia.
  - lia.
  - rewrite IH. lia.
Qed.

Lemma fold_group_add_sizes (key : scored_op -> K) df groups :
  sum_list (map (fun g => length (snd g))
     (fold_left (fun groups row =>
                   group_add compare (key row) (row_score row) groups)
                df groups))
  = (sum_list (map (fun g => length (snd g)) groups) + length df)%nat.
Proof.
  revert groups. induction df as [|row df IH]; intros groups; simpl.
  - lia.
  - rewrite IH, group_add_sizes. lia.
Qed.

Lemma groups_of_sizes (key : scored_op -> K) df :
  sum_list (map (fun g => length (snd g)) (groups_of compare key df))
  = length df.
Proof. unfold groups_of. rewrite fold_group_add_sizes. reflexivity. Qed.

End GroupSizes.

(** X15: the groups behind the two average frames partition the
    individual frame: the numbers of rows per employee of the overall
    frame, and per (employee, date) of the daily frame, each add up to the
    number of rows of the individual frame. *)
Theorem averages_partition df :
  sum_list (map (fun row =>
                   length (filter (fun r => row_employee_id r
                                            = overall_employee_id row) df))
                (overall_averages df))
  = length df
  /\ sum_list (map (fun row =>
                   length (filter (fun r => (row_employee_id r, row_date r)
                                 = (daily_employee_id row, daily_date row)) df))
                (daily_averages df))
     = length df.
Proof.
  split.
  - destruct (groups_of_spec String.compare string_compare_eq
                String.compare_antisym string_compare_trans row_employee_id df)
      as (_ & _ & Hscores).
    rewrite overall_averages_groups, map_map. simpl.
    rewrite <- (groups_of_sizes String.compare row_employee_id df).
    f_equal. apply map_ext_in. intros [k vs] Hin. simpl.
    apply list_elem_of_In in Hin.
    rewrite (Hscores k vs Hin), length_map. reflexivity.
  - destruct (groups_of_spec employee_date_compare employee_date_compare_eq
                employee_date_compare_antisym employee_date_compare_trans
                (fun r => (row_employee_id r, row_date r)) df)
      as (_ & _ & Hscores).
    rewrite daily_averages_groups, map_map. simpl.
    rewrite <- (groups_of_sizes employee_date_compare
                  (fun r => (row_employee_id r, row_date r)) df).
    f_equal. apply map_ext_in. intros [[e d] vs] Hin. simpl.
    apply list_elem_of_In in Hin.
    rewrite (Hscores (e, d) vs Hin), length_map. reflexivity.
Qed.

(** ** Averages stay on the scale *)

Lemma calculate_score_bounds c errors :
  score_in_range (calculate_score c errors).
Proof. unfold score_in_range. score_cases c errors; lra. Qed.

Lemma fold_sum_bounds scores acc :
  Forall score_in_range scores ->
  (acc <= fold_left (fun a s => a + value s) scores acc
   <= acc + 100 * inject_Z (Z.of_nat (length scores)))%Q.
Proof.
  intros Hall. revert acc.
  induction Hall as [|s scores [Hlo Hhi] _ IH]; intros acc.
  - cbn [fold_left length]. change (inject_Z (Z.of_nat 0)) with 0%Q. lra.
  - cbn [fold_left length]. specialize (IH (acc + value s)%Q).
    rewrite Nat2Z.inj_succ. unfold Z.succ. rewrite inject_Z_plus.
    change (inject_Z 1) with 1%Q. lra.
Qed.

Lemma mean_in_range scores :
  scores <> [] -> Forall score_in_range scores ->
  (0 <= mean scores <= 100)%Q.
Proof.
  intros Hne Hall. unfold mean. rewrite Qred_correct.
  pose proof (fold_sum_bounds scores 0 Hall) as [Hlo Hhi].
  fold (sum_scores scores) in Hlo, Hhi.
  assert (Hn : (0 < inject_Z (Z.of_nat (length scores)))%Q).
  { rewrite <- (Zlt_Qlt 0). destruct scores; [congruence|simpl; lia]. }
  split.
  - apply Qle_shift_div_l; [exact Hn|]. lra.
  - apply Qle_shift_div_r; [exact Hn|]. lra.
Qed.

Lemma group_mean_in_range {K : Type} `{EqDecision K}
    (key : scored_op -> K) (k : K) df :
  Forall (fun r => score_in_range (row_score r)) df ->
  k ∈ map key df ->
  (0 <= mean (map row_score (filter (fun r => key r = k) df)) <= 100)%Q.
Proof.
  intros Hall Hk. apply mean_in_range.
  - apply list_elem_of_fmap in Hk as (r & -> & Hr).
    assert (Hf : r ∈ filter (fun r' => key r' = key r) df)
      by (apply list_elem_of_filter; auto).
    intros Hnil. apply (f_equal length) in Hnil.
    rewrite length_map in Hnil. destruct (filter _ df); [inversion Hf|].
    discriminate Hnil.
  - apply Forall_map. apply Forall_forall. intros r Hr.
    apply list_elem_of_filter in Hr as [_ Hr].
    rewrite Forall_forall in Hall. apply Hall, Hr.
Qed.

Lemma averages_in_range df :
  Forall (fun r => score_in_range (row_score r)) df ->
  Forall (fun row => (0 <= daily_avg_score row <= 100)%Q) (daily_averages df)
  /\ Forall (fun row => (0 <= overall_avg_score row <= 100)%Q)
            (overall_averages df).
Proof.
  intros Hall. split.
  - destruct (groups_of_spec employee_date_compare employee_date_compare_eq
                employee_date_compare_antisym employee_date_compare_trans
                (fun r => (row_employee_id r, row_date r)) df)
      as (_ & Hkeys & Hscores).
    rewrite daily_averages_groups. apply Forall_map, Forall_forall.
    intros [k vs] Hin. simpl. rewrite (Hscores k vs Hin).
    apply group_mean_in_range; [exact Hall|].
    apply Hkeys. apply (list_elem_of_fmap_2 fst _ _ Hin).
  - destruct (groups_of_spec String.compare string_compare_eq
                String.compare_antisym string_compare_trans row_employee_id df)
      as (_ & Hkeys & Hscores).
    rewrite overall_averages_groups. apply Forall_map, Forall_forall.
    intros [k vs] Hin. simpl. rewrite (Hscores k vs Hin).
    apply group_mean_in_range; [exact Hall|].
    apply Hkeys. apply (list_elem_of_fmap_2 fst _ _ Hin).
Qed.

(** X16: whatever the user does, every daily and every overall average
    kept in the session lies between 0 and 100. *)
Theorem session_averages_in_range actions :
  Forall (fun row => (0 <= daily_avg_score row <= 100)%Q)
         (daily_employee_scores_df (run actions))
  /\ Forall (fun row => (0 <= overall_avg_score row <= 100)%Q)
            (overall_employee_scores_df (run actions)).
Proof.
  destruct (run_frames_consistent actions)
    as ([scored [_ Hdf]] & -> & ->).
  apply averages_in_range. rewrite Hdf.
  apply Forall_map, Forall_forall. intros op _.
  apply calculate_score_bounds.
Qed.

(** * Charts *)

Lemma date_compare_le_trans a b c :
  date_compare a b <> Gt -> date_compare b c <> Gt -> date_compare a c <> Gt.
Proof.
  destruct a as [y m d], b as [y' m' d'], c as [y'' m'' d''].
  unfold date_compare; simpl; intros H1 H2;
  repeat match goal with
  | H : context [?x ?= ?y] |- _ => destruct (Z.compare_spec x y)
  | |- context [?x ?= ?y] => destruct (Z.compare_spec x y)
  end; subst; try discriminate; try congruence; try lia.
Qed.

Lemma insert_by_date_perm row rows : insert_by_date row rows ≡ₚ row :: rows.
Proof.
  induction rows as [|row' rest IH]; simpl; [reflexivity|].
  destruct (date_compare (daily_date row) (daily_date row')); try reflexivity.
  rewrite IH. apply perm_swap.
Qed.

Lemma sort_values_date_perm rows : sort_values_date rows ≡ₚ rows.
Proof.
  induction rows as [|row rest IH]; simpl; [reflexivity|].
  rewrite insert_by_date_perm, IH. reflexivity.
Qed.

Lemma insert_by_date_sorted row rows :
  StronglySorted date_le rows ->
  StronglySorted date_le (insert_by_date row rows).
Proof.
  induction rows as [|row' rest IH]; simpl; intros Hs.
  - repeat constructor.
  - apply StronglySorted_cons in Hs as [Hall Hs].
    destruct (date_compare (daily_date row) (daily_date row')) eqn:E.
    + apply StronglySorted_cons. split; [|apply StronglySorted_cons; auto].
      constructor; [congruence|].
      eapply Forall_impl; [exact Hall|]. intros r Hr. simpl in *.
      eapply date_compare_le_trans; [|exact Hr]. congruence.
    + apply StronglySorted_cons. split; [|apply StronglySorted_cons; auto].
      constructor; [congruence|].
      eapply Forall_impl; [exact Hall|]. intros r Hr. simpl in *.
      eapply date_compare_le_trans; [|exact Hr]. congruence.
    + apply StronglySorted_cons. split; [|auto].
      rewrite insert_by_date_perm. constructor; [|exact Hall].
      rewrite date_compare_antisym, E. discriminate.
Qed.

Lemma sort_values_date_sorted rows :
  StronglySorted date_le (sort_values_date rows).
Proof.
  induction rows as [|row rest IH]; simpl; [constructor|].
  apply insert_by_date_sorted, IH.
Qed.

(** Sorting rows that are already in date order changes nothing. *)
Lemma sort_values_date_sorted_id rows :
  StronglySorted date_le rows -> sort_values_date rows = rows.
Proof.
  induction rows as [|row rest IH]; simpl; intros Hs; [reflexivity|].
  apply StronglySorted_cons in Hs as [Hall Hs]. rewrite (IH Hs).
  destruct rest as [|row' rest']; [reflexivity|]. simpl.
  apply Forall_cons in Hall as [Hle _]. simpl in Hle.
  destruct (date_compare (daily_date row) (daily_date row'));
    [reflexivity..|congruence].
Qed.

Lemma daily_chart_none df e :
  generate_daily_performance_chart df e = None
  <-> e ∉ map daily_employee_id df.
Proof.
  unfold generate_daily_performance_chart.
  pose proof (sort_values_date_perm
                (filter (fun row => daily_employee_id row = e) df)) as Hp.
  destruct (sort_values_date _) as [|row rows] eqn:Hsort; simpl.
  - apply Permutation_nil_l in Hp. split; [intros _|reflexivity].
    intros Hin. apply list_elem_of_fmap in Hin as (r & -> & Hr).
    assert (Hf : r ∈ filter (fun row => daily_employee_id row
                                         = daily_employee_id r) df)
      by (apply list_elem_of_filter; auto).
    rewrite <- Hp in Hf. inversion Hf.
  - split; [discriminate|]. intros Hnot. exfalso. apply Hnot.
    assert (Hrow : row ∈ filter (fun row => daily_employee_id row = e) df).
    { rewrite <- Hp. apply list_elem_of_here. }
    apply list_elem_of_filter in Hrow as [<- Hrow].
    apply (list_elem_of_fmap_2 daily_employee_id _ _ Hrow).
Qed.

(** X17: the line chart of an employee is missing exactly when the frame
    has no row for that employee; otherwise it plots that employee's rows,
    all of them and no other, in order of date, on a y axis from 0 to
    100. *)
Theorem daily_chart_spec df e :
  (generate_daily_performance_chart df e = None
   <-> e ∉ map daily_employee_id df)
  /\ (forall fig, generate_daily_performance_chart df e = Some fig ->
        exists rows,
          rows ≡ₚ filter (fun row => daily_employee_id row = e) df
          /\ StronglySorted
               (fun a b => date_compare (daily_date a) (daily_date b) <> Gt)
               rows
          /\ fig_x fig = map daily_date rows
          /\ fig_y fig = map daily_avg_score rows
          /\ fig_ylim fig = (0, 100)).
Proof.
  split; [apply daily_chart_none|].
  intros fig. unfold generate_daily_performance_chart.
  destruct (df_empty _); [discriminate|]. intros [= <-].
  exists (sort_values_date (filter (fun row => daily_employee_id row = e) df)).
  split; [apply sort_values_date_perm|].
  split; [apply sort_values_date_sorted|]. simpl. auto.
Qed.

Lemma daily_frame_keys df :
  map (fun row => (daily_employee_id row, daily_date row)) (daily_averages df)
  = map fst (groups_of employee_date_compare employee_date_key df).
Proof.
  rewrite daily_averages_groups, map_map. apply map_ext.
  intros [[e d] vs]. reflexivity.
Qed.

Lemma filter_employee_dates_ascending (rows : list daily_row) e :
  StronglySorted (fun a b => employee_date_compare a b = Lt)
    (map (fun row => (daily_employee_id row, daily_date row)) rows) ->
  StronglySorted
    (fun a b => date_compare (daily_date a) (daily_date b) = Lt)
    (filter (fun row => daily_employee_id row = e) rows).
Proof.
  induction rows as [|row rest IH]; simpl; intros Hs; [constructor|].
  apply StronglySorted_cons in Hs as [Hall Hs].
  rewrite filter_cons. destruct (decide (daily_employee_id row = e)) as [He|_];
    [|auto].
  apply StronglySorted_cons. split; [|auto].
  apply Forall_forall. intros r Hr.
  apply list_elem_of_filter in Hr as [Hre Hr].
  rewrite Forall_forall in Hall.
  specialize (Hall _ (list_elem_of_fmap_2
    (fun row => (daily_employee_id row, daily_date row)) _ _ Hr)).
  unfold employee_date_compare in Hall. simpl in Hall.
  rewrite He, Hre, (proj2 (string_compare_eq e e) eq_refl) in Hall.
  exact Hall.
Qed.

Lemma dates_ascending_le rows :
  StronglySorted
    (fun a b => date_compare (daily_date a) (daily_date b) = Lt) rows ->
  StronglySorted date_le rows.
Proof.
  induction 1 as [|row rest _ IH Hall]; constructor; [exact IH|].
  eapply Forall_impl; [exact Hall|]. simpl. congruence.
Qed.

(** X18: on the daily frame computed from an individual frame, the line
    chart of an employee has one point for each date on which the employee
    has a row, the dates strictly ascending, and the value at a date is the
    mean of the employee's scores of that date. *)
Theorem daily_chart_of_averages df e fig :
  generate_daily_performance_chart (daily_averages df) e = Some fig ->
  StronglySorted (fun a b => date_compare a b = Lt) (fig_x fig)
  /\ (forall d, d ∈ fig_x fig
                <-> (e, d) ∈ map (fun r => (row_employee_id r, row_date r)) df)
  /\ fig_y fig
     = map (fun d =>
              mean (map row_score
                      (filter (fun r => (row_employee_id r, row_date r)
                                        = (e, d)) df)))
           (fig_x fig).
Proof.
  destruct (groups_of_spec employee_date_compare employee_date_compare_eq
              employee_date_compare_antisym employee_date_compare_trans
              employee_date_key df)
    as (Hs & Hkeys & Hscores).
  rewrite <- daily_frame_keys in Hs, Hkeys.
  pose proof (filter_employee_dates_ascending _ e Hs) as Hasc.
  unfold generate_daily_performance_chart.
  rewrite (sort_values_date_sorted_id _ (dates_ascending_le _ Hasc)).
  destruct (df_empty _); [discriminate|]. intros [= <-]. simpl.
  split; [|split].
  - clear -Hasc. induction Hasc as [|row rest _ IH Hall]; simpl; constructor.
    + exact IH.
    + apply Forall_map. exact Hall.
  - intros d. rewrite <- Hkeys, !list_elem_of_fmap. split.
    + intros (row & -> & Hrow).
      apply list_elem_of_filter in Hrow as [He Hrow].
      exists row. split; [simpl; rewrite He; reflexivity|exact Hrow].
    + intros (row & Heq & Hrow). simpl in Heq. injection Heq as He Hd.
      exists row. split; [exact Hd|].
      apply list_elem_of_filter. auto.
  - rewrite map_map. apply map_ext_in. intros row Hrow.
    apply list_elem_of_In, list_elem_of_filter in Hrow as [He Hrow].
    rewrite daily_averages_groups in Hrow.
    apply list_elem_of_fmap in Hrow as ([[e' d] vs] & -> & Hin).
    simpl in *. rewrite <- He. f_equal. exact (Hscores (e', d) vs Hin).
Qed.

(** X19: after a scoring run on a store that is not empty, the individual
    frame is not empty, the bar chart exists, and the line chart exists for
    the employee of every stored record. *)
Theorem scoring_gives_charts st :
  operations st <> [] ->
  individual_op_scores_df (run_scoring st) <> []
  /\ generate_overall_average_chart
       (overall_employee_scores_df (run_scoring st)) <> None
  /\ (forall op, op ∈ operations st ->
        generate_daily_performance_chart
          (daily_employee_scores_df (run_scoring st)) (op_employee_id op)
        <> None).
Proof.
  intros Hne. unfold run_scoring.
  destruct (operations st) as [|op0 ops] eqn:Hops; [congruence|].
  cbn [df_empty operations individual_op_scores_df
       daily_employee_scores_df overall_employee_scores_df].
  rewrite evaluate_all_operations_map.
  set (df := map score_operation (op0 :: ops)).
  assert (Hrow : forall op, op ∈ op0 :: ops ->
            (op_employee_id op, op_date op) ∈ map employee_date_key df).
  { intros op Hop. apply list_elem_of_fmap. exists (score_operation op).
    split; [reflexivity|]. apply list_elem_of_fmap_2, Hop. }
  split; [discriminate|]. split.
  - destruct (groups_of_spec String.compare string_compare_eq
                String.compare_antisym string_compare_trans row_employee_id df)
      as (_ & Hkeys & _).
    assert (Hin : op_employee_id op0
                  ∈ map fst (groups_of String.compare row_employee_id df)).
    { apply Hkeys. apply list_elem_of_fmap. exists (score_operation op0).
      split; [reflexivity|]. apply list_elem_of_here. }
    unfold generate_overall_average_chart. rewrite overall_averages_groups.
    destruct (groups_of String.compare row_employee_id df);
      [inversion Hin|discriminate].
  - intros op Hop Hnone. apply daily_chart_none in Hnone. apply Hnone.
    destruct (groups_of_spec employee_date_compare employee_date_compare_eq
                employee_date_compare_antisym employee_date_compare_trans
                employee_date_key df)
      as (_ & Hkeys & _).
    specialize (Hrow op Hop). apply Hkeys in Hrow.
    rewrite <- daily_frame_keys in Hrow.
    apply list_elem_of_fmap in Hrow as (row & Heq & Hrow).
    simpl in Heq. injection Heq as He _. rewrite He.
    apply (list_elem_of_fmap_2 daily_employee_id _ _ Hrow).
Qed.

(** X20: in any session, every value plotted by either chart from the
    session's frames lies inside the fixed y axis, from 0 to 100. *)
Theorem session_charts_within_axis actions :
  (forall e fig,
     generate_daily_performance_chart
       (daily_employee_scores_df (run actions)) e = Some fig ->
     fig_ylim fig = (0, 100)
     /\ Forall (fun y => (0 <= y <= 100)%Q) (fig_y fig))
  /\ (forall fig,
        generate_overall_average_chart
          (overall_employee_scores_df (run actions)) = Some fig ->
        fig_ylim fig = (0, 100)
        /\ Forall (fun y => (0 <= y <= 100)%Q) (fig_y fig)).
Proof.
  destruct (run_frames_consistent actions) as ([scored [_ Hdf]] & Hd & Ho).
  assert (Hrange : Forall (fun r => score_in_range (row_score r))
                          (individual_op_scores_df (run actions))).
  { rewrite Hdf. apply Forall_map, Forall_forall. intros op _.
    apply calculate_score_bounds. }
  apply averages_in_range in Hrange as [Hdaily Hoverall].
  rewrite <- Hd in Hdaily. rewrite <- Ho in Hoverall.
  split.
  - intros e fig. unfold generate_daily_performance_chart.
    destruct (df_empty _); [discriminate|]. intros [= <-]. simpl.
    split; [reflexivity|]. apply Forall_map.
    rewrite sort_values_date_perm. apply Forall_forall. intros row Hrow.
    apply list_elem_of_filter in Hrow as [_ Hrow].
    rewrite Forall_forall in Hdaily. apply Hdaily, Hrow.
  - intros fig. unfold generate_overall_average_chart.
    destruct (df_empty _); [discriminate|]. intros [= <-]. simpl.
    split; [reflexivity|]. apply Forall_map. exact Hoverall.
Qed.

(** * The entry form *)

Lemma formatted_options_truthy desc :
  desc ∈ FORMATTED_OPERATION_OPTIONS -> truthy desc = true.
Proof.
  unfold FORMATTED_OPERATION_OPTIONS. intros Hin.
  apply list_elem_of_fmap in Hin as (op & -> & Hop).
  unfold PREDEFINED_OPERATION_DESCRIPTIONS in Hop.
  repeat (apply elem_of_cons in Hop as [->|Hop]; [reflexivity|]).
  inversion Hop.
Qed.

(** X21: with a description chosen in the selectbox, a submission is
    turned down exactly when the employee id is empty, and then nothing
    in the session changes; otherwise one record is appended at the end of
    the store and the three derived frames stay as they were. *)
Theorem add_operation_outcome f st :
  selected_operation_description f ∈ FORMATTED_OPERATION_OPTIONS ->
  (employee_id f = ""%string -> add_operation f st = st)
  /\ (employee_id f <> ""%string ->
        operations (add_operation f st) = operations st ++ [new_operation f]
        /\ individual_op_scores_df (add_operation f st)
           = individual_op_scores_df st
        /\ daily_employee_scores_df (add_operation f st)
           = daily_employee_scores_df st
        /\ overall_employee_scores_df (add_operation f st)
           = overall_employee_scores_df st).
Proof.
  intros Hdesc. unfold add_operation.
  rewrite (formatted_options_truthy _ Hdesc), andb_true_r.
  split.
  - intros ->. reflexivity.
  - intros Hne. destruct (employee_id f) as [|a s]; [congruence|].
    simpl. auto.
Qed.

Lemma add_operation_outcome_witness :
  "地漏: 清洁、液封"%string ∈ FORMATTED_OPERATION_OPTIONS
  /\ add_operation
       (mkForm "" (mkDate 2025 6 1) "地漏: 清洁、液封" "" 80 [] false)
       (run chart_session)
     = run chart_session.
Proof.
  assert (H : "地漏: 清洁、液封"%string ∈ FORMATTED_OPERATION_OPTIONS)
    by (apply (bool_decide_unpack _); vm_compute; exact I).
  exact (conj H
    (proj1 (add_operation_outcome
              (mkForm "" (mkDate 2025 6 1) "地漏: 清洁、液封" "" 80 [] false)
              (run chart_session) H) eq_refl)).
Defined.

Lemma new_operation_display_flag f :
  multiselect_ok f = true -> display_flag_faithful (new_operation f).
Proof.
  unfold multiselect_ok, display_flag_faithful.
  rewrite bool_decide_eq_true, Forall_forall. intros Hsel.
  unfold new_operation, final_error_types. simpl.
  destruct (has_safety_hazard f).
  - split; [intros _|reflexivity].
    apply elem_of_app. right. apply list_elem_of_here.
  - split; [discriminate|].
    intros Hin. destruct (hazard_not_an_option (Hsel _ Hin)).
Qed.

(** X22: in every record made by the form, the display flag is "是"
    exactly when the error list holds the severe category. *)
Theorem session_display_flag_faithful actions :
  forallb action_ok actions = true ->
  Forall (fun op => op_has_safety_hazard_display op = "是"%string
                    <-> SAFETY_HAZARD ∈ op_error_types op)
         (operations (run actions)).
Proof.
  intros Hok. unfold run.
  assert (Hinit : Forall display_flag_faithful (operations initial_state))
    by constructor.
  revert Hok Hinit. generalize initial_state.
  induction actions as [|a actions IH]; intros st Hok Hst; simpl.
  - exact Hst.
  - simpl in Hok. apply andb_true_iff in Hok as [Ha Hok].
    apply IH; [exact Hok|]. destruct a as [f| |]; simpl.
    + unfold add_operation.
      destruct (truthy (employee_id f)
                && truthy (selected_operation_description f)); [|exact Hst].
      simpl. apply Forall_app. split; [exact Hst|].
      constructor; [|constructor]. apply new_operation_display_flag, Ha.
    + constructor.
    + unfold run_scoring. destruct (df_empty (operations st)); exact Hst.
Qed.

Lemma session_display_flag_faithful_witness :
  forallb action_ok chart_session = true
  /\ Forall (fun op => op_has_safety_hazard_display op = "是"%string
                       <-> SAFETY_HAZARD ∈ op_error_types op)
            (operations (run chart_session)).
Proof.
  assert (Hok : forallb action_ok chart_session = true)
    by (vm_compute; reflexivity).
  exact (conj Hok (session_display_flag_faithful chart_session Hok)).
Defined.

(** * Instances on a sample session *)

Lemma overall_averages_spec_witness :
  mkOverallRow "A" (Qred 65)
    ∈ overall_averages (individual_op_scores_df (run chart_session))
  /\ Qred 65
     = mean (map row_score
               (filter (fun r => row_employee_id r = "A"%string)
                       (individual_op_scores_df (run chart_session)))).
Proof.
  assert (Hin : mkOverallRow "A" (Qred 65)
                ∈ overall_averages
                    (individual_op_scores_df (run chart_session)))
    by (vm_compute; apply list_elem_of_here).
  exact (conj Hin
    (proj2 (proj2 (overall_averages_spec
                     (individual_op_scores_df (run chart_session)))) _ Hin)).
Defined.

Lemma daily_averages_spec_witness :
  mkDailyRow "A" (mkDate 2025 6 2) (Qred 87.5)
    ∈ daily_averages (individual_op_scores_df (run chart_session))
  /\ Qred 87.5
     = mean (map row_score
               (filter (fun r => (row_employee_id r, row_date r)
                                 = ("A"%string, mkDate 2025 6 2))
                       (individual_op_scores_df (run chart_session)))).
Proof.
  assert (Hin : mkDailyRow "A" (mkDate 2025 6 2) (Qred 87.5)
                ∈ daily_averages
                    (individual_op_scores_df (run chart_session)))
    by (vm_compute; apply list_elem_of_further, list_elem_of_here).
  exact (conj Hin
    (proj2 (proj2 (daily_averages_spec
                     (individual_op_scores_df (run chart_session)))) _ Hin)).
Defined.

Lemma daily_chart_spec_witness :
  generate_daily_performance_chart
    (daily_employee_scores_df (run chart_session)) "A"
  = Some chart_session_line_A
  /\ exists rows,
       rows ≡ₚ filter (fun row => daily_employee_id row = "A"%string)
                      (daily_employee_scores_df (run chart_session))
       /\ StronglySorted
            (fun a b => date_compare (daily_date a) (daily_date b) <> Gt) rows
       /\ fig_x chart_session_line_A = map daily_date rows
       /\ fig_y chart_session_line_A = map daily_avg_score rows
       /\ fig_ylim chart_session_line_A = (0, 100).
Proof.
  assert (H : generate_daily_performance_chart
                (daily_employee_scores_df (run chart_session)) "A"
              = Some chart_session_line_A) by (vm_compute; reflexivity).
  exact (conj H (proj2 (daily_chart_spec _ "A") _ H)).
Defined.

Lemma daily_chart_of_averages_witness :
  generate_daily_performance_chart
    (daily_averages (individual_op_scores_df (run chart_session))) "A"
  = Some chart_session_line_A
  /\ StronglySorted (fun a b => date_compare a b = Lt)
                    (fig_x chart_session_line_A).
Proof.
  assert (H : generate_daily_performance_chart
                (daily_averages (individual_op_scores_df (run chart_session)))
                "A"
              = Some chart_session_line_A) by (vm_compute; reflexivity).
  exact (conj H (proj1 (daily_chart_of_averages _ "A" _ H))).
Defined.

Lemma scoring_gives_charts_witness :
  operations (run chart_session) <> []
  /\ individual_op_scores_df (run_scoring (run chart_session)) <> [].
Proof.
  assert (H : operations (run chart_session) <> [])
    by (vm_compute; discriminate).
  exact (conj H (proj1 (scoring_gives_charts (run chart_session) H))).
Defined.

Lemma session_charts_within_axis_witness :
  generate_daily_performance_chart
    (daily_employee_scores_df (run chart_session)) "A"
  = Some chart_session_line_A
  /\ fig_ylim chart_session_line_A = (0, 100)
  /\ Forall (fun y => (0 <= y <= 100)%Q) (fig_y chart_session_line_A).
Proof.
  assert (H : generate_daily_performance_chart
                (daily_employee_scores_df (run chart_session)) "A"
              = Some chart_session_line_A) by (vm_compute; reflexivity).
  exact (conj H (proj1 (session_charts_within_axis chart_session) "A" _ H)).
Defined.
